(** * Bus driver and command sequencer of the AVR EEPROM programmer

    A shallow embedding of [src/main.cpp]: the pin map of the ATmega328P
    build, the [Bus] structure ([config_write], [write_bus], [config_read],
    [read_bus]) and the three command sequences ([erase], [unlock], [lock]).

    The controller is modelled at the level of its I/O registers (one data
    direction register and one output register per port).  Every operation
    of the pin layer is one register access; a run of a driver function
    yields the list of register accesses it performed together with the
    hardware state they lead to.  The two address latches and the memory
    device hang off the pins and react after every register access. *)

From Stdlib Require Import ZArith List Lia Bool.
Import ListNotations.
Local Open Scope Z_scope.

(** ** Fixed-width values *)

(** Conversion to [uint8_t]. *)
Definition u8 (x : Z) : Z := Z.land x 0xFF.

(** Conversion to [uint16_t]. *)
Definition u16 (x : Z) : Z := Z.land x 0xFFFF.

(** The mask of bit [n] of a port. *)
Definition bit (n : Z) : Z := Z.shiftl 1 n.

(** ** I/O registers of the controller *)

(** [CORE_PORT(B)], [CORE_PORT(C)], [CORE_PORT(D)]. *)
Inductive port_id := PortB | PortC | PortD.

(** The registers of one port: [DDRx] (a set bit makes the pin an output)
    and [PORTx] (the level driven on an output pin; on an input pin a set
    bit switches the pull-up on). *)
Record port_regs := mkRegs { DDR : Z; PORT : Z }.

Record mcu := mkMcu { regB : port_regs; regC : port_regs; regD : port_regs }.

Definition get_regs (p : port_id) (c : mcu) : port_regs :=
  match p with PortB => regB c | PortC => regC c | PortD => regD c end.

Definition set_regs (p : port_id) (r : port_regs) (c : mcu) : mcu :=
  match p with
  | PortB => mkMcu r (regC c) (regD c)
  | PortC => mkMcu (regB c) r (regD c)
  | PortD => mkMcu (regB c) (regC c) r
  end.

(** All registers cleared: every pin an input without pull-up, as after a
    reset of the controller. *)
Definition reset_mcu : mcu := mkMcu (mkRegs 0 0) (mkRegs 0 0) (mkRegs 0 0).

(** One access of the program to the hardware. *)
Inductive event :=
| EvDdrSet (p : port_id) (mask : Z)        (* DDRx |= mask *)
| EvDdrClear (p : port_id) (mask : Z)      (* DDRx &= ~mask *)
| EvPortWrite (p : port_id) (mask v : Z)   (* PORTx = (PORTx & ~mask) | (v & mask) *)
| EvPinRead (p : port_id) (mask v : Z)     (* v = PINx & mask *)
| EvNop                                    (* one "nop" instruction *)
| EvDelay (ms : Z).                        (* delay(ms) *)

Definition cpu_step (e : event) (c : mcu) : mcu :=
  match e with
  | EvDdrSet p m =>
      let r := get_regs p c in set_regs p (mkRegs (Z.lor (DDR r) m) (PORT r)) c
  | EvDdrClear p m =>
      let r := get_regs p c in set_regs p (mkRegs (Z.ldiff (DDR r) m) (PORT r)) c
  | EvPortWrite p m v =>
      let r := get_regs p c in
      set_regs p (mkRegs (DDR r) (Z.lor (Z.ldiff (PORT r) m) (Z.land v m))) c
  | EvPinRead _ _ _ | EvNop | EvDelay _ => c
  end.

(** ** Pins and control lines *)

(** The electrical state of one pin: whether it is an output, and the bit
    of the output register.  A pin is high when that bit is set (driven
    high as an output, pulled up as an input); it is low when it is an
    output whose bit is clear.  An input without pull-up floats. *)
Record pin := mkPin { p_out : bool; p_lvl : bool }.

Definition pin_at (r : port_regs) (n : Z) : pin :=
  mkPin (Z.testbit (DDR r) n) (Z.testbit (PORT r) n).

Definition pin_high (p : pin) : bool := p_lvl p.
Definition pin_low (p : pin) : bool := p_out p && negb (p_lvl p).

Inductive polarity := ActiveHigh | ActiveLow.

Definition pin_asserted (pol : polarity) (p : pin) : bool :=
  match pol with ActiveHigh => pin_high p | ActiveLow => pin_low p end.

Definition pin_idle (pol : polarity) (p : pin) : bool :=
  match pol with ActiveHigh => pin_low p | ActiveLow => pin_high p end.

(** A control line: one bit of a port, with its polarity. *)
Record line := mkLine { l_port : port_id; l_bit : Z; l_pol : polarity }.

Definition pin_of (l : line) (c : mcu) : pin := pin_at (get_regs (l_port l) c) (l_bit l).

Definition asserted (l : line) (c : mcu) : bool := pin_asserted (l_pol l) (pin_of l c).
Definition idle (l : line) (c : mcu) : bool := pin_idle (l_pol l) (pin_of l c).
Definition is_output (l : line) (c : mcu) : bool := p_out (pin_of l c).

(** ** Pin map of [main.cpp] (ATmega328P) *)

(** [using MSBLatch = ActiveHigh<PortC::Bit<5>>]. *)
Definition MSBLatch : line := mkLine PortC 5 ActiveHigh.

(** [using LSBLatch = ActiveHigh<PortC::Bit<4>>]. *)
Definition LSBLatch : line := mkLine PortC 4 ActiveHigh.

(** [using ReadEnable = ActiveLow<PortC::Bit<3>>]. *)
Definition ReadEnable : line := mkLine PortC 3 ActiveLow.

(** [using WriteEnable = ActiveLow<PortC::Bit<2>>]. *)
Definition WriteEnable : line := mkLine PortC 2 ActiveLow.

(** The two halves of the data bus, [PortD::Mask<0xF0>] and
    [PortB::Mask<0x0F>]: data bits 7..4 are D7..D4, data bits 3..0 are
    B3..B0. *)
Definition DATA_HI : Z := 0xF0.
Definition DATA_LO : Z := 0x0F.

(** Which of the eight data lines the controller drives, and the byte in
    the output registers of the data pins. *)
Definition data_dir (c : mcu) : Z :=
  Z.lor (Z.land (DDR (regD c)) DATA_HI) (Z.land (DDR (regB c)) DATA_LO).

Definition data_out (c : mcu) : Z :=
  Z.lor (Z.land (PORT (regD c)) DATA_HI) (Z.land (PORT (regB c)) DATA_LO).

(** The controller drives the whole data bus; it drives none of it. *)
Definition data_driven (c : mcu) : bool := data_dir c =? 0xFF.
Definition data_released (c : mcu) : bool := data_dir c =? 0.

(** The pins the board is wired to. *)
Record pins := mkPins {
  pin_msb : pin;
  pin_lsb : pin;
  pin_re : pin;
  pin_we : pin;
  dat_dir : Z;
  dat_val : Z
}.

Definition pins_of (c : mcu) : pins :=
  mkPins (pin_of MSBLatch c) (pin_of LSBLatch c) (pin_of ReadEnable c) (pin_of WriteEnable c)
         (data_dir c) (data_out c).

(** ** The board: two address latches and the memory device *)

Inductive latch_id := MSB | LSB.

(** The device has 8192 cells (AT28C64B): it decodes 13 address lines. *)
Definition DEVICE_SIZE : Z := 0x2000.

(** Modelled from the spec: the address latches and the memory device are
    hardware, not code; they are modelled as the spec's glossary and data
    model describe them.  A latch follows the shared data lines while its
    strobe is asserted and holds the byte when the strobe is released.  The
    device takes the address at the assertion of write-enable and the data
    at its release, stores the byte unless protection is on, and drives the
    addressed cell on the data lines while read-enable is asserted.  The
    device is idealised: a write completes at once, and the protection flag
    is a fixed attribute (command sequences are not decoded).
    [latched] and [writes] are recordings kept for the proofs: the bytes a
    latch held at each release of its strobe, and the write cycles the
    device saw; [stray] is the level of the lines nobody drives. *)
Record board := mkBoard {
  latch_msb : Z;
  latch_lsb : Z;
  latched : list (latch_id * Z);
  cells : Z -> Z;
  protection : bool;
  wr_addr : Z;
  writes : list (Z * Z);
  stray : Z
}.

Definition set_latch (l : latch_id) (v : Z) (b : board) : board :=
  match l with
  | MSB => mkBoard v (latch_lsb b) (latched b) (cells b) (protection b) (wr_addr b) (writes b) (stray b)
  | LSB => mkBoard (latch_msb b) v (latched b) (cells b) (protection b) (wr_addr b) (writes b) (stray b)
  end.

Definition get_latch (l : latch_id) (b : board) : Z :=
  match l with MSB => latch_msb b | LSB => latch_lsb b end.

Definition log_latched (l : latch_id) (b : board) : board :=
  mkBoard (latch_msb b) (latch_lsb b) (latched b ++ [(l, get_latch l b)]) (cells b)
          (protection b) (wr_addr b) (writes b) (stray b).

Definition set_wr_addr (a : Z) (b : board) : board :=
  mkBoard (latch_msb b) (latch_lsb b) (latched b) (cells b) (protection b) a (writes b) (stray b).

(** The 16-bit address the two latches present. *)
Definition bus_addr (b : board) : Z := Z.lor (Z.shiftl (latch_msb b) 8) (latch_lsb b).

(** The cell an address selects: the device sees the low 13 lines. *)
Definition cell_of (a : Z) : Z := Z.land a (DEVICE_SIZE - 1).

Definition store (a d : Z) (m : Z -> Z) : Z -> Z :=
  fun x => if x =? cell_of a then d else m x.

(** The end of a write cycle. *)
Definition commit (d : Z) (b : board) : board :=
  mkBoard (latch_msb b) (latch_lsb b) (latched b)
          (if protection b then cells b else store (wr_addr b) d (cells b))
          (protection b) (wr_addr b) (writes b ++ [(wr_addr b, d)]) (stray b).

Definition strobed (l : latch_id) (a : pins) : bool :=
  match l with
  | MSB => pin_asserted (l_pol MSBLatch) (pin_msb a)
  | LSB => pin_asserted (l_pol LSBLatch) (pin_lsb a)
  end.

Definition re_on (a : pins) : bool := pin_asserted (l_pol ReadEnable) (pin_re a).
Definition we_on (a : pins) : bool := pin_asserted (l_pol WriteEnable) (pin_we a).

(** Modelled from the spec: the memory device, told by the assertion of
    read-enable to drive the data bus (glossary).  What is on the data lines
    from outside the controller. *)
Definition ext_data (a : pins) (b : board) : Z :=
  if re_on a then cells b (cell_of (bus_addr b)) else stray b.

(** The byte on the eight shared data lines: a line the controller drives
    carries the controller's level, any other line the level from outside. *)
Definition data_lines (a : pins) (b : board) : Z :=
  Z.lor (Z.land (dat_val a) (dat_dir a)) (Z.ldiff (u8 (ext_data a b)) (dat_dir a)).

(** Modelled from the spec: the address latch of the glossary, a storage
    element that samples a value from the shared lines when strobed.  A
    latch whose strobe is asserted follows the data lines. *)
Definition follow (l : latch_id) (a : pins) (b : board) : board :=
  if strobed l a then set_latch l (data_lines a b) b else b.

(** Modelled from the spec: the address latch of the glossary, which
    holds the sampled value.  A latch whose strobe has just been released
    holds (and the byte it holds is recorded). *)
Definition hold (l : latch_id) (a a' : pins) (b : board) : board :=
  if strobed l a && negb (strobed l a') then log_latched l b else b.

(** Modelled from the spec: the memory device, told by the assertion of
    write-enable to accept the data bus (glossary): the address is taken when
    write-enable is asserted, the data when it is released. *)
Definition strobe (a a' : pins) (b : board) : board :=
  match we_on a, we_on a' with
  | false, true => set_wr_addr (bus_addr b) b
  | true, false => commit (data_lines a' b) b
  | _, _ => b
  end.

(** The board after the pins went from [a] to [a']. *)
Definition react (a a' : pins) (b : board) : board :=
  strobe a a' (hold LSB a a' (hold MSB a a' (follow LSB a' (follow MSB a' b)))).

(** ** Hardware state and runs *)

Record hw := mkHw { cpu : mcu; brd : board }.

Definition apply_event (e : event) (h : hw) : hw :=
  let c' := cpu_step e (cpu h) in
  mkHw c' (react (pins_of (cpu h)) (pins_of c') (brd h)).

(** The input register [PINx]: an output pin reads back its own level, an
    input pin the level applied from outside. *)
Definition pin_in (r : port_regs) (ext : Z) : Z :=
  Z.lor (Z.land (PORT r) (DDR r)) (Z.ldiff ext (DDR r)).

(** The state after a list of accesses, and the states passed through. *)
Definition replay (evs : list event) (h : hw) : hw :=
  fold_left (fun s e => apply_event e s) evs h.

Fixpoint states_along (evs : list event) (h : hw) : list hw :=
  match evs with
  | [] => [h]
  | e :: evs' => h :: states_along evs' (apply_event e h)
  end.

(** A computation on the hardware: its result, the state it leaves and the
    accesses it made, in order. *)
Definition M (A : Type) : Type := hw -> A * hw * list event.

Definition ret {A} (a : A) : M A := fun h => (a, h, []).

Definition bind {A B} (m : M A) (k : A -> M B) : M B :=
  fun h =>
    let '(a, h1, t1) := m h in
    let '(b, h2, t2) := k a h1 in
    (b, h2, t1 ++ t2).

Declare Scope bus_scope.
Delimit Scope bus_scope with bus.
Notation "x <- m ;; k" := (bind m (fun x => k))
  (at level 61, m at next level, right associativity) : bus_scope.
Notation "m ;; k" := (bind m (fun _ => k))
  (at level 61, right associativity) : bus_scope.
Local Open Scope bus_scope.

Definition result {A} (m : M A) (h : hw) : A := fst (fst (m h)).
Definition final {A} (m : M A) (h : hw) : hw := snd (fst (m h)).
Definition events {A} (m : M A) (h : hw) : list event := snd (m h).

(** A register access without a result. *)
Definition emit (e : event) : M unit := fun h => (tt, apply_event e h, [e]).

(** Reading [PINx & mask]. *)
Definition sample (p : port_id) (mask : Z) : M Z :=
  fun h =>
    let v := Z.land (pin_in (get_regs p (cpu h)) (ext_data (pins_of (cpu h)) (brd h))) mask in
    (v, apply_event (EvPinRead p mask v) h, [EvPinRead p mask v]).

(** ** The pin layer ([core/io.hpp]) *)

Module Io.

(** A readable and writable port. *)
Record Port := mkPort {
  config_output : M unit;
  config_input : M unit;
  write : Z -> M unit;
  read : M Z
}.

(** A write-only port. *)
Record OutPort := mkOutPort {
  out_config_output : M unit;
  out_write : Z -> M unit
}.

(** A control line with its polarity resolved. *)
Record Control := mkControl {
  ctl_config_output : M unit;
  enable : M unit;
  disable : M unit
}.

(** Modelled from the spec: [PortX::Mask<m>] of core/io.hpp, a Pin Group
    (section 4.1): [config_output]/[config_input] set the direction of the
    pins of the group, [write] drives them, [read] samples them. *)
Definition Mask (p : port_id) (m : Z) : Port :=
  mkPort (emit (EvDdrSet p m))
         (emit (EvDdrClear p m))
         (fun v => emit (EvPortWrite p m (Z.land v m)))
         (sample p m).

(** Modelled from the spec: [BitExtend<MSB, LSB>] of core/io.hpp, a
    Composite Port (sections 3 and 4.1): one operation per constituent
    group, in a fixed order; the value read is the union of the groups. *)
Definition BitExtend (hi lo : Port) : Port :=
  mkPort (config_output hi ;; config_output lo)
         (config_input hi ;; config_input lo)
         (fun v => write hi v ;; write lo v)
         (a <- read hi ;; b <- read lo ;; ret (Z.lor a b)).

(** Modelled from the spec: [ActiveLow<PortX::Bit<n>>] and
    [ActiveHigh<PortX::Bit<n>>] of core/io.hpp (section 4.1): [enable]
    drives the level that means asserted, [disable] the other one;
    configuring the line as output leaves it idle (section 4.3,
    configure_for_write). *)
Definition ControlLine (l : line) : Control :=
  let p := l_port l in
  let m := bit (l_bit l) in
  let set := emit (EvPortWrite p m m) in
  let clear := emit (EvPortWrite p m 0) in
  match l_pol l with
  | ActiveHigh => mkControl (clear ;; emit (EvDdrSet p m)) set clear
  | ActiveLow => mkControl (set ;; emit (EvDdrSet p m)) clear set
  end.

(** Modelled from the spec: [Latch<DATA, ENABLE>] of core/io.hpp, the
    Address Latch (section 4.2): [write] drives the byte on the data lines
    and pulses the strobe, assert then deassert. *)
Definition Latch (data : Port) (le : Control) : OutPort :=
  mkOutPort (config_output data ;; ctl_config_output le)
            (fun v => write data v ;; enable le ;; disable le).

(** Modelled from the spec: [WordExtend<MSB, LSB>] of core/io.hpp (section
    4.2): writing the full address writes the most significant byte first,
    then the least significant byte. *)
Definition WordExtend (msb lsb : OutPort) : OutPort :=
  mkOutPort (out_config_output msb ;; out_config_output lsb)
            (fun v => out_write msb (u8 (Z.shiftr v 8)) ;; out_write lsb (u8 v)).

End Io.

(** ** [main.cpp] *)

(** [using DataPort = BitExtend<PortD::Mask<0xF0>, PortB::Mask<0x0F>>]. *)
Definition DataPort : Io.Port := Io.BitExtend (Io.Mask PortD DATA_HI) (Io.Mask PortB DATA_LO).

(** [using AddressMSB = Latch<DataPort, MSBLatch>]. *)
Definition AddressMSB : Io.OutPort := Io.Latch DataPort (Io.ControlLine MSBLatch).

(** [using AddressLSB = Latch<DataPort, LSBLatch>]. *)
Definition AddressLSB : Io.OutPort := Io.Latch DataPort (Io.ControlLine LSBLatch).

(** [using AddressPort = WordExtend<AddressMSB, AddressLSB>]. *)
Definition AddressPort : Io.OutPort := Io.WordExtend AddressMSB AddressLSB.

(** [__asm__ __volatile__("nop")]. *)
Definition nop : M unit := emit EvNop.

(** [delay(ms)] of Arduino.h: returns after at least [ms] milliseconds. *)
Definition delay (ms : Z) : M unit := emit (EvDelay ms).

Module Bus.

Definition config_write : M unit :=
  Io.out_config_output AddressPort ;;
  Io.config_output DataPort ;;
  Io.ctl_config_output (Io.ControlLine ReadEnable) ;;
  Io.ctl_config_output (Io.ControlLine WriteEnable).

Definition write_bus (addr data : Z) : M unit :=
  Io.out_write AddressPort addr ;;
  Io.enable (Io.ControlLine WriteEnable) ;;
  Io.write DataPort data ;;
  Io.disable (Io.ControlLine WriteEnable).

Definition config_read : M unit :=
  Io.out_config_output AddressPort ;;
  Io.config_input DataPort ;;
  Io.ctl_config_output (Io.ControlLine ReadEnable) ;;
  Io.ctl_config_output (Io.ControlLine WriteEnable).

Definition read_bus (addr : Z) : M Z :=
  (* Latch address from data port *)
  Io.config_output DataPort ;;
  Io.out_write AddressPort addr ;;
  (* Begin read sequence *)
  Io.config_input DataPort ;;
  Io.enable (Io.ControlLine ReadEnable) ;;
  nop ;;
  nop ;;
  (* Read data from memory *)
  data <- Io.read DataPort ;;
  (* End read sequence *)
  Io.disable (Io.ControlLine ReadEnable) ;;
  ret data.

End Bus.

(** [erase]: the command sequence that erases all bytes to FF. *)
Definition erase : M unit :=
  Bus.config_write ;;
  Bus.write_bus 0x5555 0xAA ;;
  Bus.write_bus 0xAAAA 0x55 ;;
  Bus.write_bus 0x5555 0x80 ;;
  Bus.write_bus 0x5555 0xAA ;;
  Bus.write_bus 0xAAAA 0x55 ;;
  Bus.write_bus 0x5555 0x10 ;;
  delay 20.

(** [unlock]: the command sequence that disables software data protection. *)
Definition unlock : M unit :=
  Bus.config_write ;;
  Bus.write_bus 0x5555 0xAA ;;
  Bus.write_bus 0xAAAA 0x55 ;;
  Bus.write_bus 0x5555 0x80 ;;
  Bus.write_bus 0x5555 0xAA ;;
  Bus.write_bus 0xAAAA 0x55 ;;
  Bus.write_bus 0x5555 0x20 ;;
  delay 10.

(** [lock]: the command sequence that enables software data protection. *)
Definition lock : M unit :=
  Bus.config_write ;;
  Bus.write_bus 0x5555 0xAA ;;
  Bus.write_bus 0xAAAA 0x55 ;;
  Bus.write_bus 0x5555 0xA0 ;;
  delay 10.

(** ** The steps of a bus cycle *)

(** The register access that sets, clears, asserts or deasserts a control
    line. *)
Definition ev_set (l : line) : event := EvPortWrite (l_port l) (bit (l_bit l)) (bit (l_bit l)).
Definition ev_clear (l : line) : event := EvPortWrite (l_port l) (bit (l_bit l)) 0.

Definition ev_assert (l : line) : event :=
  match l_pol l with ActiveHigh => ev_set l | ActiveLow => ev_clear l end.

Definition ev_deassert (l : line) : event :=
  match l_pol l with ActiveHigh => ev_clear l | ActiveLow => ev_set l end.

(** Making a control line an output, idle. *)
Definition ev_line_output (l : line) : list event :=
  [ev_deassert l; EvDdrSet (l_port l) (bit (l_bit l))].

(** Switching the data bus to output, to input; driving a byte on it;
    sampling the byte [v] from it. *)
Definition ev_data_output : list event := [EvDdrSet PortD DATA_HI; EvDdrSet PortB DATA_LO].
Definition ev_data_input : list event := [EvDdrClear PortD DATA_HI; EvDdrClear PortB DATA_LO].

Definition ev_data_write (v : Z) : list event :=
  [EvPortWrite PortD DATA_HI (Z.land v DATA_HI); EvPortWrite PortB DATA_LO (Z.land v DATA_LO)].

Definition ev_data_read (v : Z) : list event :=
  [EvPinRead PortD DATA_HI (Z.land v DATA_HI); EvPinRead PortB DATA_LO (Z.land v DATA_LO)].

Definition latch_line (l : latch_id) : line :=
  match l with MSB => MSBLatch | LSB => LSBLatch end.

(** Latching one byte: the byte on the data lines, then a pulse of the
    strobe. *)
Definition ev_latch (l : latch_id) (v : Z) : list event :=
  ev_data_write v ++ [ev_assert (latch_line l); ev_deassert (latch_line l)].

(** Latching an address: both halves, through the data lines. *)
Definition ev_address (a : Z) : list event :=
  ev_latch MSB (u8 (Z.shiftr a 8)) ++ ev_latch LSB (u8 a).

(** One write cycle. *)
Definition ev_write_bus (a d : Z) : list event :=
  ev_address a ++ [ev_assert WriteEnable] ++ ev_data_write d ++ [ev_deassert WriteEnable].

(** A read cycle up to the moment of sampling. *)
Definition ev_read_setup (a : Z) : list event :=
  ev_data_output ++ ev_address a ++ ev_data_input ++ [ev_assert ReadEnable] ++ [EvNop; EvNop].

(** ** Recorders *)

Definition port_eqb (p q : port_id) : bool :=
  match p, q with
  | PortB, PortB | PortC, PortC | PortD, PortD => true
  | _, _ => false
  end.

Definition event_eqb (e f : event) : bool :=
  match e, f with
  | EvDdrSet p m, EvDdrSet q n => port_eqb p q && (m =? n)
  | EvDdrClear p m, EvDdrClear q n => port_eqb p q && (m =? n)
  | EvPortWrite p m v, EvPortWrite q n w => port_eqb p q && (m =? n) && (v =? w)
  | EvPinRead p m v, EvPinRead q n w => port_eqb p q && (m =? n) && (v =? w)
  | EvNop, EvNop => true
  | EvDelay m, EvDelay n => m =? n
  | _, _ => false
  end.

(** The configured minimum read-settle count (two cycles, [main.cpp]
    line 93). *)
Definition MIN_SETTLE_NOPS : nat := 2.

(** The no-op cycles up to the first sampling of a pin. *)
Fixpoint nops_until_read (evs : list event) : option nat :=
  match evs with
  | [] => None
  | EvPinRead _ _ _ :: _ => Some 0%nat
  | EvNop :: r => option_map S (nops_until_read r)
  | _ :: r => nops_until_read r
  end.

(** The no-op cycles between the assertion of read-enable and the first
    sampling after it. *)
Fixpoint settle_nops (evs : list event) : option nat :=
  match evs with
  | [] => None
  | e :: r => if event_eqb e (ev_assert ReadEnable) then nops_until_read r else settle_nops r
  end.

(** The milliseconds waited at the very end of a run. *)
Fixpoint leading_delay (evs : list event) : Z :=
  match evs with
  | EvDelay ms :: r => ms + leading_delay r
  | _ => 0
  end.

Definition trailing_delay (evs : list event) : Z := leading_delay (rev evs).

(** Read-enable is asserted while the controller drives a data line. *)
Definition contention (c : mcu) : bool :=
  asserted ReadEnable c && negb (data_released c).

(** ** The command sequences as data *)

Definition ERASE_SEQ : list (Z * Z) :=
  [(0x5555, 0xAA); (0xAAAA, 0x55); (0x5555, 0x80); (0x5555, 0xAA); (0xAAAA, 0x55); (0x5555, 0x10)].

Definition UNLOCK_SEQ : list (Z * Z) :=
  [(0x5555, 0xAA); (0xAAAA, 0x55); (0x5555, 0x80); (0x5555, 0xAA); (0xAAAA, 0x55); (0x5555, 0x20)].

Definition LOCK_SEQ : list (Z * Z) :=
  [(0x5555, 0xAA); (0xAAAA, 0x55); (0x5555, 0xA0)].

(** The accesses of [config_write] and of [config_read]: each port and
    line of the bus is configured in turn. *)
Definition ev_config_write : list event :=
  (ev_data_output ++ ev_line_output MSBLatch) ++ (ev_data_output ++ ev_line_output LSBLatch) ++
  ev_data_output ++ ev_line_output ReadEnable ++ ev_line_output WriteEnable.

Definition ev_config_read : list event :=
  (ev_data_output ++ ev_line_output MSBLatch) ++ (ev_data_output ++ ev_line_output LSBLatch) ++
  ev_data_input ++ ev_line_output ReadEnable ++ ev_line_output WriteEnable.

(** The accesses of a list of write cycles. *)
Definition ev_sequence (s : list (Z * Z)) : list event :=
  flat_map (fun ad => ev_write_bus (fst ad) (snd ad)) s.

(** A command sequence as the design notes put it: the pairs are written
    one after the other with [Bus.write_bus], then the settle delay. *)
Definition issue (s : list (Z * Z)) (ms : Z) : M unit :=
  fold_right (fun ad k => Bus.write_bus (fst ad) (snd ad) ;; k) (delay ms) s.

(** ** Bus transactions *)

Inductive transaction :=
| TRead (a : Z)
| TWrite (a d : Z).

Definition run_transaction (t : transaction) : M unit :=
  match t with
  | TRead a => Bus.read_bus a ;; ret tt
  | TWrite a d => Bus.write_bus a d
  end.

Fixpoint run_transactions (ts : list transaction) : M unit :=
  match ts with
  | [] => ret tt
  | t :: r => run_transaction t ;; run_transactions r
  end.

(** The states at which the transactions of a sequence begin and end. *)
Fixpoint boundary_states (ts : list transaction) (h : hw) : list hw :=
  match ts with
  | [] => [h]
  | t :: r => h :: boundary_states r (final (run_transaction t) h)
  end.

(** The entry points of the driver and of the command sequencer, and
    programs made of calls to them. *)
Inductive call :=
| CallConfigWrite
| CallConfigRead
| CallWrite (a d : Z)
| CallRead (a : Z)
| CallErase
| CallUnlock
| CallLock.

Definition run_call (c : call) : M unit :=
  match c with
  | CallConfigWrite => Bus.config_write
  | CallConfigRead => Bus.config_read
  | CallWrite a d => Bus.write_bus a d
  | CallRead a => Bus.read_bus a ;; ret tt
  | CallErase => erase
  | CallUnlock => unlock
  | CallLock => lock
  end.

Fixpoint run_calls (cs : list call) : M unit :=
  match cs with
  | [] => ret tt
  | c :: r => run_call c ;; run_calls r
  end.

(** Both enable lines deasserted. *)
Definition bus_idle (c : mcu) : bool := idle ReadEnable c && idle WriteEnable c.

(** The bus is set up for write cycles: the controller drives the data
    bus, and write-enable is an output, deasserted. *)
Definition configured_for_write (c : mcu) : bool :=
  data_driven c && is_output WriteEnable c && idle WriteEnable c.

(** ** The pins as a machine of their own *)

(** The effect of a register access on one pin and on the pins the board
    is wired to; [pins_step_ok] below shows it agrees with [cpu_step]. *)
Definition pin_step (l : line) (e : event) (p : pin) : pin :=
  let n := l_bit l in
  match e with
  | EvDdrSet q m =>
      if port_eqb q (l_port l) then mkPin (if Z.testbit m n then true else p_out p) (p_lvl p) else p
  | EvDdrClear q m =>
      if port_eqb q (l_port l) then mkPin (if Z.testbit m n then false else p_out p) (p_lvl p) else p
  | EvPortWrite q m v =>
      if port_eqb q (l_port l)
      then mkPin (p_out p) (if Z.testbit m n then Z.testbit v n else p_lvl p)
      else p
  | _ => p
  end.

Definition pins_step (e : event) (a : pins) : pins :=
  mkPins (pin_step MSBLatch e (pin_msb a)) (pin_step LSBLatch e (pin_lsb a))
         (pin_step ReadEnable e (pin_re a)) (pin_step WriteEnable e (pin_we a))
         (match e with
          | EvDdrSet PortD m => Z.lor (dat_dir a) (Z.land m DATA_HI)
          | EvDdrSet PortB m => Z.lor (dat_dir a) (Z.land m DATA_LO)
          | EvDdrClear PortD m => Z.ldiff (dat_dir a) (Z.land m DATA_HI)
          | EvDdrClear PortB m => Z.ldiff (dat_dir a) (Z.land m DATA_LO)
          | _ => dat_dir a
          end)
         (match e with
          | EvPortWrite PortD m v =>
              Z.lor (Z.ldiff (dat_val a) (Z.land m DATA_HI)) (Z.land (Z.land v m) DATA_HI)
          | EvPortWrite PortB m v =>
              Z.lor (Z.ldiff (dat_val a) (Z.land m DATA_LO)) (Z.land (Z.land v m) DATA_LO)
          | _ => dat_val a
          end).

Definition pstep (e : event) (s : pins * board) : pins * board :=
  let a' := pins_step e (fst s) in (a', react (fst s) a' (snd s)).

Definition prun (evs : list event) (s : pins * board) : pins * board :=
  fold_left (fun s e => pstep e s) evs s.

Definition view (h : hw) : pins * board := (pins_of (cpu h), brd h).

(** The pins alone: the final pins and the pins passed through. *)
Definition pins_run (evs : list event) (a : pins) : pins :=
  fold_left (fun s e => pins_step e s) evs a.

Fixpoint pins_along (evs : list event) (a : pins) : list pins :=
  match evs with
  | [] => [a]
  | e :: evs' => a :: pins_along evs' (pins_step e a)
  end.

(** ** A concrete machine *)

(** A board whose device holds [0xFF] in every cell, unprotected. *)
Definition blank_board : board := mkBoard 0 0 [] (fun _ => 0xFF) false 0 [] 0.

Definition reset_hw : hw := mkHw reset_mcu blank_board.

(** ** States and values named in the properties *)

(** A computation is faithful when the state it leaves is the state its
    accesses lead to. *)
Definition faithful {A} (m : M A) : Prop :=
  forall h, final m h = replay (events m h) h.

(** The byte in the output registers of the data pins after [x] was
    written to both halves. *)
Definition wr_val (v x : Z) : Z :=
  Z.lor (Z.ldiff (Z.lor (Z.ldiff v (Z.land DATA_HI DATA_HI))
                        (Z.land (Z.land (Z.land x DATA_HI) DATA_HI) DATA_HI))
                 (Z.land DATA_LO DATA_LO))
        (Z.land (Z.land (Z.land x DATA_LO) DATA_LO) DATA_LO).

(** The address the latches present after [a] has been latched. *)
Definition latched_addr (a : Z) : Z := Z.lor (Z.shiftl (u8 (Z.shiftr a 8)) 8) (u8 a).

(** The board after one write cycle of the driver. *)
Definition board_after_write (a d : Z) (b : board) : board :=
  mkBoard (u8 (Z.shiftr a 8)) (u8 a)
          (latched b ++ [(MSB, u8 (Z.shiftr a 8)); (LSB, u8 a)])
          (if protection b then cells b else store (latched_addr a) (u8 d) (cells b))
          (protection b) (latched_addr a)
          (writes b ++ [(latched_addr a, u8 d)]) (stray b).

(** The board after a sequence of write cycles. *)
Definition board_after (s : list (Z * Z)) (b : board) : board :=
  fold_left (fun b ad => board_after_write (fst ad) (snd ad) b) s b.

(** The board once the address [a] has been latched for a read cycle. *)
Definition board_addressed (a : Z) (b : board) : board :=
  mkBoard (u8 (Z.shiftr a 8)) (u8 a)
          (latched b ++ [(MSB, u8 (Z.shiftr a 8)); (LSB, u8 a)])
          (cells b) (protection b) (wr_addr b) (writes b) (stray b).

(** The pins after [config_write], from any state: the bus is in this
    "write mode". *)
Definition write_mode_pins (v : Z) : pins :=
  mkPins (mkPin true false) (mkPin true false) (mkPin true true) (mkPin true true) 0xFF v.

(** The pins after [config_read] in "read mode": the data bus released. *)
Definition read_mode_pins (v : Z) : pins :=
  mkPins (mkPin true false) (mkPin true false) (mkPin true true) (mkPin true true) 0 v.

(** ** Further notions named in the properties *)

(** The device is as it was: the same cells, the same protection, the same
    write cycles seen. *)
Definition same_device (b b' : board) : Prop :=
  cells b' = cells b /\ protection b' = protection b /\ writes b' = writes b.

(** An access that leaves the read-enable pin alone. *)
Definition spares_re (e : event) : bool :=
  match e with
  | EvDdrSet PortC m | EvDdrClear PortC m | EvPortWrite PortC m _ =>
      negb (Z.testbit m (l_bit ReadEnable))
  | _ => true
  end.

(** The states a computation passes through, from the first to the last. *)
Definition passes {A} (m : M A) (h : hw) : list hw := states_along (events m h) h.

(** * Properties *)

(** ** Bits of the masks *)

Lemma testbit_above (m i : Z) : 0 <= m < 256 -> 8 <= i -> Z.testbit m i = false.
Proof.
  intros [Hm Hlt] Hi.
  destruct (Z.eq_dec m 0) as [->|Hne]; [apply Z.testbit_0_l|].
  apply Z.bits_above_log2; [lia|].
  assert (Z.log2 m < 8); [|lia].
  apply Z.log2_lt_pow2; lia.
Qed.

(** Evaluates the bit tests whose operands are numerals. *)
Ltac closed_bits :=
  repeat match goal with
         | |- context [Z.testbit ?a ?b] =>
             let v := eval vm_compute in (Z.testbit a b) in
             match v with
             | true => change (Z.testbit a b) with true
             | false => change (Z.testbit a b) with false
             end
         end.

Ltac split_bits :=
  repeat match goal with
         | |- context [Z.testbit ?a ?b] => destruct (Z.testbit a b)
         end.

Ltac push_bits :=
  repeat (rewrite Z.lor_spec || rewrite Z.land_spec || rewrite Z.ldiff_spec
          || rewrite Z.testbit_0_l).

(** Equality of two bytes built with the bitwise operations and the masks
    of the data bus: bit by bit, the eight low bits by evaluation. *)
Ltac bits8 :=
  apply Z.bits_inj'; intros i Hi;
  unfold u8, DATA_HI, DATA_LO;
  push_bits;
  destruct (Z.ltb_spec i 8);
  [ assert (Hc : i = 0 \/ i = 1 \/ i = 2 \/ i = 3 \/ i = 4 \/ i = 5 \/ i = 6 \/ i = 7) by lia;
    repeat (destruct Hc as [Hc|Hc]; [subst i; closed_bits; split_bits; reflexivity|]);
    subst i; closed_bits; split_bits; reflexivity
  | rewrite ?(testbit_above 240 i), ?(testbit_above 15 i), ?(testbit_above 255 i) by lia;
    split_bits; reflexivity ].

Lemma data_dir_byte (c : mcu) : Z.land (data_dir c) 0xFF = data_dir c.
Proof. unfold data_dir. bits8. Qed.

Lemma data_out_byte (c : mcu) : Z.land (data_out c) 0xFF = data_out c.
Proof. unfold data_out. bits8. Qed.

(** ** Runs *)

Section Runs.

Context {A B : Type}.
Variable m : M A.
Variable k : A -> M B.

Lemma events_bind (h : hw) :
  events (bind m k) h = events m h ++ events (k (result m h)) (final m h).
Proof.
  unfold events, result, final, bind.
  destruct (m h) as [[a h1] t1]; simpl.
  destruct (k a h1) as [[b h2] t2]; reflexivity.
Qed.

Lemma result_bind (h : hw) :
  result (bind m k) h = result (k (result m h)) (final m h).
Proof.
  unfold result, final, bind.
  destruct (m h) as [[a h1] t1]; simpl.
  destruct (k a h1) as [[b h2] t2]; reflexivity.
Qed.

Lemma final_bind (h : hw) :
  final (bind m k) h = final (k (result m h)) (final m h).
Proof.
  unfold result, final, bind.
  destruct (m h) as [[a h1] t1]; simpl.
  destruct (k a h1) as [[b h2] t2]; reflexivity.
Qed.

End Runs.

Lemma replay_app (t1 t2 : list event) (h : hw) :
  replay (t1 ++ t2) h = replay t2 (replay t1 h).
Proof. unfold replay. apply fold_left_app. Qed.

Lemma faithful_ret {A} (a : A) : faithful (ret a).
Proof. intros h. reflexivity. Qed.

Lemma faithful_emit (e : event) : faithful (emit e).
Proof. intros h. reflexivity. Qed.

Lemma faithful_sample (p : port_id) (mask : Z) : faithful (sample p mask).
Proof. intros h. reflexivity. Qed.

Lemma faithful_bind {A B} (m : M A) (k : A -> M B) :
  faithful m -> (forall a, faithful (k a)) -> faithful (bind m k).
Proof.
  intros Hm Hk h.
  rewrite final_bind, events_bind, replay_app, <- Hm.
  apply Hk.
Qed.

Create HintDb faithful.
#[local] Hint Resolve faithful_ret faithful_emit faithful_sample : faithful.
#[local] Hint Extern 2 (faithful (bind _ _)) => apply faithful_bind; [|intro] : faithful.

Ltac faithful_tac := repeat (cbv beta iota zeta delta
  [Bus.config_write Bus.write_bus Bus.config_read Bus.read_bus nop delay
   AddressPort AddressMSB AddressLSB DataPort
   Io.WordExtend Io.Latch Io.BitExtend Io.Mask Io.ControlLine
   Io.config_output Io.config_input Io.write Io.read
   Io.out_config_output Io.out_write Io.ctl_config_output Io.enable Io.disable
   MSBLatch LSBLatch ReadEnable WriteEnable l_pol l_port l_bit]);
  auto 30 with faithful.

Lemma faithful_config_write : faithful Bus.config_write.
Proof. faithful_tac. Qed.

Lemma faithful_config_read : faithful Bus.config_read.
Proof. faithful_tac. Qed.

Lemma faithful_write_bus (a d : Z) : faithful (Bus.write_bus a d).
Proof. faithful_tac. Qed.

Lemma faithful_read_bus (a : Z) : faithful (Bus.read_bus a).
Proof. faithful_tac. Qed.

(** ** The pins follow the registers *)

Lemma pins_step_ok (e : event) (c : mcu) : pins_of (cpu_step e c) = pins_step e (pins_of c).
Proof.
  destruct c as [[dB pB] [dC pC] [dD pD]].
  destruct e as [p m|p m|p m v|p m v| |ms]; try reflexivity;
    destruct p;
    cbv beta iota zeta delta
      [pins_of pins_step pin_step pin_of pin_at data_dir data_out cpu_step
       get_regs set_regs regB regC regD DDR PORT port_eqb
       pin_msb pin_lsb pin_re pin_we dat_dir dat_val p_out p_lvl
       MSBLatch LSBLatch ReadEnable WriteEnable l_port l_bit l_pol];
    f_equal;
    try (f_equal; push_bits; split_bits; reflexivity);
    bits8.
Qed.

Lemma view_apply (e : event) (h : hw) : view (apply_event e h) = pstep e (view h).
Proof. unfold view, apply_event, pstep; cbn. now rewrite pins_step_ok. Qed.

Lemma view_replay (evs : list event) (h : hw) : view (replay evs h) = prun evs (view h).
Proof.
  revert h; induction evs as [|e evs IH]; intros h; [reflexivity|].
  cbn. unfold replay in IH. rewrite IH, view_apply. reflexivity.
Qed.

Lemma brd_replay (evs : list event) (h : hw) :
  brd (replay evs h) = snd (prun evs (pins_of (cpu h), brd h)).
Proof.
  change (brd (replay evs h)) with (snd (view (replay evs h))).
  now rewrite view_replay.
Qed.

Lemma prun_pins (evs : list event) (s : pins * board) : fst (prun evs s) = pins_run evs (fst s).
Proof.
  revert s; induction evs as [|e evs IH]; intros s; [reflexivity|].
  cbn. unfold prun in IH. rewrite IH. reflexivity.
Qed.

Lemma pins_replay (evs : list event) (h : hw) :
  pins_of (cpu (replay evs h)) = pins_run evs (pins_of (cpu h)).
Proof.
  change (fst (view (replay evs h)) = pins_run evs (fst (view h))).
  now rewrite view_replay, prun_pins.
Qed.

Lemma pins_states_along (Q : pins -> Prop) (evs : list event) (h : hw) :
  Forall Q (pins_along evs (pins_of (cpu h))) ->
  Forall (fun s => Q (pins_of (cpu s))) (states_along evs h).
Proof.
  revert h; induction evs as [|e evs IH]; intros h Hall; cbn in *.
  - inversion Hall; subst. constructor; [assumption|constructor].
  - inversion Hall; subst. constructor; [assumption|].
    apply IH. cbn. now rewrite pins_step_ok.
Qed.

(** ** The accesses of the driver functions *)

Lemma events_config_write (h : hw) : events Bus.config_write h = ev_config_write.
Proof. reflexivity. Qed.

Lemma events_write_bus (a d : Z) (h : hw) : events (Bus.write_bus a d) h = ev_write_bus a d.
Proof. reflexivity. Qed.

Lemma events_config_read (h : hw) : events Bus.config_read h = ev_config_read.
Proof. reflexivity. Qed.

(** ** Reading the pins of the final state *)

Lemma final_pins {A} (m : M A) (h : hw) :
  faithful m -> pins_of (cpu (final m h)) = pins_run (events m h) (pins_of (cpu h)).
Proof. intros Hm. rewrite Hm. apply pins_replay. Qed.

Lemma asserted_pins (c : mcu) :
  asserted MSBLatch c = strobed MSB (pins_of c) /\
  asserted LSBLatch c = strobed LSB (pins_of c) /\
  asserted ReadEnable c = re_on (pins_of c) /\
  asserted WriteEnable c = we_on (pins_of c).
Proof. repeat split. Qed.

(** Evaluates a run of the pins; the bitwise operations on the data byte
    stay as they are. *)
Ltac run_pins := cbv -[Z.land Z.lor Z.ldiff Z.eqb Z.shiftr].


(** ** The board during a write cycle *)

Lemma val_written (v x : Z) : u8 (wr_val v x) = u8 x.
Proof. unfold wr_val. bits8. Qed.

Lemma u8_idem (x : Z) : u8 (u8 x) = u8 x.
Proof. bits8. Qed.

Lemma u8_byte (x : Z) : 0 <= x < 256 -> u8 x = x.
Proof.
  intros Hx. unfold u8. change 255 with (Z.ones 8).
  rewrite Z.land_ones by lia. apply Z.mod_small. change (2 ^ 8) with 256. lia.
Qed.

(** While the controller drives the whole bus, the lines carry its byte;
    while it drives none of it, they carry the byte from outside. *)
Lemma lines_driven (pm pl pr pw : pin) (v : Z) (b : board) :
  data_lines (mkPins pm pl pr pw 0xFF v) b = u8 v.
Proof.
  unfold data_lines; cbn [dat_val dat_dir].
  generalize (ext_data (mkPins pm pl pr pw 255 v) b); intros e. bits8.
Qed.

Lemma lines_released (pm pl pr pw : pin) (v : Z) (b : board) :
  data_lines (mkPins pm pl pr pw 0 v) b = u8 (ext_data (mkPins pm pl pr pw 0 v) b).
Proof.
  unfold data_lines; cbn [dat_val dat_dir].
  generalize (ext_data (mkPins pm pl pr pw 0 v) b); intros e. bits8.
Qed.

Lemma prun_app (t1 t2 : list event) (s : pins * board) :
  prun (t1 ++ t2) s = prun t2 (prun t1 s).
Proof. unfold prun. apply fold_left_app. Qed.

Lemma prun_cons (e : event) (t : list event) (s : pins * board) :
  prun (e :: t) s = prun t (pstep e s).
Proof. reflexivity. Qed.

Lemma prun_nil (s : pins * board) : prun [] s = s.
Proof. reflexivity. Qed.

(** Runs the pins and the board through the accesses of the driver, one
    access at a time; the bitwise operations on bytes stay as they are, and
    the byte on the lines is simplified as soon as it appears. *)
Ltac fold_wr_val :=
  repeat match goal with
         | |- context [Z.lor (Z.ldiff (Z.lor (Z.ldiff ?v (Z.land DATA_HI DATA_HI))
                                             (Z.land (Z.land (Z.land ?x DATA_HI) DATA_HI) DATA_HI)) ?m) ?b] =>
             change (Z.lor (Z.ldiff (Z.lor (Z.ldiff v (Z.land DATA_HI DATA_HI))
                                           (Z.land (Z.land (Z.land x DATA_HI) DATA_HI) DATA_HI)) m) b)
               with (wr_val v x)
         end.

Ltac is_pos p :=
  lazymatch p with
  | xH => idtac
  | xO ?q => is_pos q
  | xI ?q => is_pos q
  end.

Ltac is_num z :=
  lazymatch z with
  | Z0 => idtac
  | Zpos ?p => is_pos p
  end.

(** Evaluates the direction byte of the data pins when it is a closed
    expression. *)
Ltac close_dir :=
  try match goal with
      | |- context [mkPins _ _ _ _ ?d _] =>
          tryif is_num d then fail
          else (let d' := eval vm_compute in d in is_num d'; change d with d')
      end.

Ltac run_step :=
  rewrite prun_cons;
  cbv -[Z.land Z.lor Z.ldiff Z.eqb Z.shiftr Z.shiftl app store cell_of data_lines u8
        DATA_HI DATA_LO prun wr_val ext_data];
  fold_wr_val; close_dir;
  rewrite ?lines_driven, ?val_written, ?u8_idem.

Ltac run_board :=
  cbv beta iota zeta delta
    [ev_write_bus ev_address ev_latch ev_assert ev_deassert ev_set ev_clear
     ev_data_write ev_data_read ev_data_output ev_data_input ev_line_output
     ev_read_setup ev_config_write ev_config_read latch_line
     MSBLatch LSBLatch WriteEnable ReadEnable l_pol l_port l_bit app bit];
  change (Z.shiftl 1 5) with 32; change (Z.shiftl 1 4) with 16;
  change (Z.shiftl 1 3) with 8; change (Z.shiftl 1 2) with 4;
  repeat run_step;
  rewrite prun_nil.

Lemma prun_write_bus (a d : Z) (om ol lm ll : bool) (pr : pin) (v : Z) (b : board) :
  prun (ev_write_bus a d) (mkPins (mkPin om lm) (mkPin ol ll) pr (mkPin true true) 0xFF v, b)
  = (mkPins (mkPin om false) (mkPin ol false) pr (mkPin true true) 0xFF
            (wr_val (wr_val (wr_val v (u8 (Z.shiftr a 8))) (u8 a)) d),
     board_after_write a d b).
Proof.
  destruct lm, ll, pr as [o l], b as [b1 b2 b3 b4 b5 b6 b7 b8].
  all: run_board.
  all: unfold board_after_write, latched_addr; cbn [latched protection cells writes stray].
  all: rewrite <- ?app_assoc.
  all: reflexivity.
Qed.

(** ** Configuration *)

Lemma faithful_erase : faithful erase.
Proof. unfold erase. faithful_tac. Qed.

Lemma faithful_lock : faithful lock.
Proof. unfold lock. faithful_tac. Qed.

Lemma pins_after_config_write (h : hw) :
  pins_of (cpu (final Bus.config_write h)) = write_mode_pins (data_out (cpu h)).
Proof.
  rewrite (final_pins _ _ faithful_config_write), events_config_write.
  pose proof (data_dir_byte (cpu h)) as Hd.
  change (data_dir (cpu h)) with (dat_dir (pins_of (cpu h))) in Hd.
  change (data_out (cpu h)) with (dat_val (pins_of (cpu h))).
  destruct (pins_of (cpu h)) as [pm pl pr pw d v]; cbn [dat_dir dat_val] in *.
  run_pins. unfold write_mode_pins. f_equal.
  rewrite <- Hd. bits8.
Qed.

Lemma write_mode_facts (c : mcu) (v : Z) :
  pins_of c = write_mode_pins v ->
  data_driven c = true /\
  is_output MSBLatch c = true /\ is_output LSBLatch c = true /\
  idle MSBLatch c = true /\ idle LSBLatch c = true /\
  is_output ReadEnable c = true /\ is_output WriteEnable c = true /\
  idle ReadEnable c = true /\ idle WriteEnable c = true.
Proof.
  intros P.
  change ((dat_dir (pins_of c) =? 0xFF) = true /\
          p_out (pin_msb (pins_of c)) = true /\ p_out (pin_lsb (pins_of c)) = true /\
          pin_idle ActiveHigh (pin_msb (pins_of c)) = true /\
          pin_idle ActiveHigh (pin_lsb (pins_of c)) = true /\
          p_out (pin_re (pins_of c)) = true /\ p_out (pin_we (pins_of c)) = true /\
          pin_idle ActiveLow (pin_re (pins_of c)) = true /\
          pin_idle ActiveLow (pin_we (pins_of c)) = true).
  rewrite P. repeat split.
Qed.

(** C7: [config_write] makes the data bus and the strobes of the address
    latches outputs, with the strobes released, and makes read-enable and
    write-enable outputs in their idle (deasserted) state, whatever the state
    before. *)
Theorem config_write_outputs_idle (h : hw) :
  let c := cpu (final Bus.config_write h) in
  data_driven c = true /\
  is_output MSBLatch c = true /\ is_output LSBLatch c = true /\
  idle MSBLatch c = true /\ idle LSBLatch c = true /\
  is_output ReadEnable c = true /\ is_output WriteEnable c = true /\
  idle ReadEnable c = true /\ idle WriteEnable c = true.
Proof.
  exact (write_mode_facts _ _ (pins_after_config_write h)).
Qed.

(** ** The steps of a write cycle *)

Lemma view_final {A} (m : M A) (h : hw) :
  faithful m -> view (final m h) = prun (events m h) (view h).
Proof. intros Hm. rewrite Hm. apply view_replay. Qed.

(** The address the latches present is the address truncated to 16 bits. *)
Lemma latched_addr_u16 (a : Z) : latched_addr a = u16 a.
Proof.
  unfold latched_addr, u8, u16.
  change 255 with (Z.ones 8). change 65535 with (Z.ones 16).
  apply Z.bits_inj'; intros i Hi.
  rewrite Z.lor_spec, !Z.land_spec.
  destruct (Z.ltb_spec i 8) as [H8|H8].
  - rewrite Z.shiftl_spec_low by lia.
    rewrite !Z.ones_spec_low by lia. now rewrite andb_true_r.
  - rewrite Z.shiftl_spec by lia. rewrite Z.land_spec, Z.shiftr_spec by lia.
    replace (i - 8 + 8) with i by lia.
    rewrite (Z.ones_spec_high 8 i) by lia. rewrite andb_false_r, orb_false_r.
    destruct (Z.ltb_spec i 16) as [H16|H16].
    + now rewrite !Z.ones_spec_low by lia.
    + now rewrite !Z.ones_spec_high by lia.
Qed.

(** Reading the state through the pins and the board. *)
Lemma brd_view (s : hw) : brd s = snd (view s).
Proof. reflexivity. Qed.

Lemma data_out_view (s : hw) : data_out (cpu s) = u8 (dat_val (fst (view s))).
Proof. symmetry. apply data_out_byte. Qed.

Lemma configured_view (s : hw) :
  configured_for_write (cpu s)
  = (dat_dir (fst (view s)) =? 0xFF) && p_out (pin_we (fst (view s)))
    && p_lvl (pin_we (fst (view s))).
Proof. reflexivity. Qed.

(** The data pins carry the data byte when [write_bus] returns. *)
Lemma data_out_after_write (a d : Z) (h : hw) :
  data_out (cpu (final (Bus.write_bus a d) h)) = u8 d.
Proof.
  rewrite data_out_view, (view_final _ _ (faithful_write_bus a d)), events_write_bus.
  rewrite prun_pins. unfold view; cbn [fst].
  destruct (pins_of (cpu h)) as [pm pl pr pw dd v].
  change (dat_val (pins_run (ev_write_bus a d) (mkPins pm pl pr pw dd v)))
    with (wr_val (wr_val (wr_val v (u8 (Z.shiftr a 8))) (u8 a)) d).
  apply val_written.
Qed.

(** X3: with the bus set up for write cycles, [write_bus] shows the device
    one write cycle, of the byte at the address (each truncated to its
    width), and leaves the bus set up for write cycles. *)
Lemma write_bus_cycle (a d : Z) (h : hw) :
  configured_for_write (cpu h) = true ->
  brd (final (Bus.write_bus a d) h) = board_after_write a d (brd h) /\
  writes (brd (final (Bus.write_bus a d) h)) = writes (brd h) ++ [(u16 a, u8 d)] /\
  configured_for_write (cpu (final (Bus.write_bus a d) h)) = true.
Proof.
  intros Hc.
  rewrite configured_view, brd_view.
  rewrite (view_final _ _ (faithful_write_bus a d)), events_write_bus.
  rewrite configured_view in Hc.
  apply andb_true_iff in Hc. destruct Hc as [Hc Hwl].
  apply andb_true_iff in Hc. destruct Hc as [Hd Hwo].
  apply Z.eqb_eq in Hd.
  unfold view in *; cbn [fst] in Hd, Hwo, Hwl.
  destruct (pins_of (cpu h)) as [[om lm] [ol ll] pr [ow lw] dd v].
  cbn [dat_dir pin_we p_out p_lvl] in Hd, Hwo, Hwl. subst dd ow lw.
  rewrite prun_write_bus. cbn [fst snd].
  split; [reflexivity|]. split; [|reflexivity].
  cbn [board_after_write writes]. now rewrite latched_addr_u16.
Qed.

(** C2: for every address and data byte, [write_bus] performs, in this
    order and nothing else: the latching of the address (most significant
    half, then least significant half, each through the data lines), the
    assertion of write-enable, the driving of the data byte on the data bus,
    the deassertion of write-enable; the state it leaves is the one these
    accesses lead to, with the data byte on the data pins. *)
Theorem write_bus_steps (a d : Z) (h : hw) :
  events (Bus.write_bus a d) h =
    ev_address a ++ [ev_assert WriteEnable] ++ ev_data_write d ++ [ev_deassert WriteEnable] /\
  ev_address a = ev_latch MSB (u8 (Z.shiftr a 8)) ++ ev_latch LSB (u8 a) /\
  final (Bus.write_bus a d) h = replay (events (Bus.write_bus a d) h) h /\
  data_out (cpu (final (Bus.write_bus a d) h)) = u8 d.
Proof.
  split; [reflexivity|]. split; [reflexivity|].
  split; [apply faithful_write_bus|apply data_out_after_write].
Qed.

(** ** Command sequences *)

Lemma events_issue (s : list (Z * Z)) (ms : Z) (h : hw) :
  events (issue s ms) h = ev_sequence s ++ [EvDelay ms].
Proof.
  revert h; induction s as [|[a d] s IH]; intros h; [reflexivity|].
  cbn [issue fold_right ev_sequence flat_map fst snd].
  rewrite events_bind, events_write_bus. fold (issue s ms). rewrite IH.
  fold (ev_sequence s). now rewrite app_assoc.
Qed.

Lemma faithful_issue (s : list (Z * Z)) (ms : Z) : faithful (issue s ms).
Proof.
  induction s as [|[a d] s IH]; [apply faithful_emit|].
  cbn [issue fold_right fst snd]. apply faithful_bind; [apply faithful_write_bus|].
  intros _. exact IH.
Qed.

Lemma prun_sequence (s : list (Z * Z)) :
  forall v b, exists v',
    prun (ev_sequence s) (write_mode_pins v, b) = (write_mode_pins v', board_after s b).
Proof.
  induction s as [|[a d] s IH]; intros v b; [now exists v|].
  cbn [ev_sequence flat_map fst snd]. fold (ev_sequence s).
  rewrite prun_app. unfold write_mode_pins at 1. rewrite prun_write_bus.
  apply IH.
Qed.

Lemma writes_board_after (s : list (Z * Z)) :
  forall b, writes (board_after s b)
            = writes b ++ map (fun ad => (latched_addr (fst ad), u8 (snd ad))) s.
Proof.
  induction s as [|[a d] s IH]; intros b; cbn [board_after fold_left map fst snd].
  - now rewrite app_nil_r.
  - fold (board_after s (board_after_write a d b)). rewrite IH.
    cbn [board_after_write writes]. now rewrite <- app_assoc.
Qed.

Lemma prun_delay (ms v : Z) (b : board) :
  prun [EvDelay ms] (write_mode_pins v, b) = (write_mode_pins v, b).
Proof. reflexivity. Qed.

(** The write cycles the device sees during a command sequence issued in
    write mode. *)
Lemma writes_issue (s : list (Z * Z)) (ms : Z) (h : hw) (v : Z) :
  pins_of (cpu h) = write_mode_pins v ->
  writes (brd (final (issue s ms) h))
  = writes (brd h) ++ map (fun ad => (latched_addr (fst ad), u8 (snd ad))) s.
Proof.
  intros P.
  rewrite (faithful_issue s ms h), events_issue.
  change (brd (replay (ev_sequence s ++ [EvDelay ms]) h))
    with (snd (view (replay (ev_sequence s ++ [EvDelay ms]) h))).
  rewrite view_replay. unfold view. rewrite P, prun_app.
  destruct (prun_sequence s v (brd h)) as [v' ->].
  rewrite prun_delay. cbn [snd]. apply writes_board_after.
Qed.

(** When write-enable is not asserted on entry, [config_write] shows the
    device no write cycle. *)
Lemma writes_config_write (h : hw) :
  asserted WriteEnable (cpu h) = false ->
  writes (brd (final Bus.config_write h)) = writes (brd h).
Proof.
  intros Hwe.
  rewrite (faithful_config_write h), events_config_write, brd_replay.
  change (asserted WriteEnable (cpu h)) with (pin_low (pin_we (pins_of (cpu h)))) in Hwe.
  destruct (pins_of (cpu h)) as [[om lm] [ol ll] [o l] [ow lw] dd v].
  destruct (brd h) as [b1 b2 b3 b4 b5 b6 b7 b8].
  destruct ow, lw; try discriminate Hwe; clear Hwe; destruct lm, ll.
  all: run_board; reflexivity.
Qed.

(** The command sequences of [main.cpp] are instances of [issue]. *)
Lemma erase_is_issue : erase = (Bus.config_write ;; issue ERASE_SEQ 20).
Proof. reflexivity. Qed.

Lemma unlock_is_issue : unlock = (Bus.config_write ;; issue UNLOCK_SEQ 10).
Proof. reflexivity. Qed.

Lemma lock_is_issue : lock = (Bus.config_write ;; issue LOCK_SEQ 10).
Proof. reflexivity. Qed.

(** A command sequence leaves the bus in write mode. *)
Lemma pins_after_issue (s : list (Z * Z)) (ms : Z) (h : hw) (v : Z) :
  pins_of (cpu h) = write_mode_pins v ->
  exists v', pins_of (cpu (final (issue s ms) h)) = write_mode_pins v'.
Proof.
  intros P.
  change (pins_of (cpu (final (issue s ms) h))) with (fst (view (final (issue s ms) h))).
  rewrite (faithful_issue s ms h), events_issue, view_replay.
  unfold view. rewrite P, prun_app.
  destruct (prun_sequence s v (brd h)) as [v' ->].
  rewrite prun_delay. now exists v'.
Qed.

(** C3: [erase] performs the configuration for writing, then exactly the
    six write cycles (0x5555,0xAA), (0xAAAA,0x55), (0x5555,0x80),
    (0x5555,0xAA), (0xAAAA,0x55), (0x5555,0x10) in this order, each one a
    plain [write_bus] cycle with nothing between them, then a delay of 20 ms,
    which is the last thing it does; the device sees these six write cycles
    and no other. *)
Theorem erase_sequence (h : hw) :
  events erase h = events Bus.config_write h ++ ev_sequence ERASE_SEQ ++ [EvDelay 20] /\
  writes (brd (final erase h)) = writes (brd (final Bus.config_write h)) ++ ERASE_SEQ /\
  20 <= trailing_delay (events erase h).
Proof.
  rewrite erase_is_issue.
  split; [|split].
  - rewrite events_bind, events_issue. reflexivity.
  - rewrite final_bind.
    rewrite (writes_issue _ _ _ _ (pins_after_config_write h)). reflexivity.
  - rewrite events_bind, events_issue, events_config_write.
    unfold trailing_delay. rewrite !rev_app_distr. cbn. lia.
Qed.

(** C4: [lock] performs the configuration for writing, then exactly the
    three write cycles (0x5555,0xAA), (0xAAAA,0x55), (0x5555,0xA0) in this
    order, each one a plain [write_bus] cycle, then a delay of 10 ms, which is
    the last thing it does; the device sees these three write cycles and no
    other. *)
Theorem lock_sequence (h : hw) :
  events lock h = events Bus.config_write h ++ ev_sequence LOCK_SEQ ++ [EvDelay 10] /\
  writes (brd (final lock h)) = writes (brd (final Bus.config_write h)) ++ LOCK_SEQ /\
  10 <= trailing_delay (events lock h).
Proof.
  rewrite lock_is_issue.
  split; [|split].
  - rewrite events_bind, events_issue. reflexivity.
  - rewrite final_bind.
    rewrite (writes_issue _ _ _ _ (pins_after_config_write h)). reflexivity.
  - rewrite events_bind, events_issue, events_config_write.
    unfold trailing_delay. rewrite !rev_app_distr. cbn. lia.
Qed.

(** ** The steps of a read cycle *)

(** Sampling both halves of the data port yields the byte on the lines. *)
Lemma sample_hi (c : mcu) (b : board) :
  Z.land (pin_in (regD c) (ext_data (pins_of c) b)) DATA_HI
  = Z.land (data_lines (pins_of c) b) DATA_HI.
Proof.
  unfold data_lines. set (e := ext_data (pins_of c) b). clearbody e.
  unfold pins_of, dat_val, dat_dir, data_out, data_dir, pin_in. bits8.
Qed.

Lemma sample_lo (c : mcu) (b : board) :
  Z.land (pin_in (regB c) (ext_data (pins_of c) b)) DATA_LO
  = Z.land (data_lines (pins_of c) b) DATA_LO.
Proof.
  unfold data_lines. set (e := ext_data (pins_of c) b). clearbody e.
  unfold pins_of, dat_val, dat_dir, data_out, data_dir, pin_in. bits8.
Qed.

Lemma sample_both (c : mcu) (b : board) :
  Z.lor (Z.land (data_lines (pins_of c) b) DATA_HI) (Z.land (data_lines (pins_of c) b) DATA_LO)
  = data_lines (pins_of c) b.
Proof.
  unfold data_lines. set (e := ext_data (pins_of c) b). clearbody e.
  unfold pins_of, dat_val, dat_dir, data_out, data_dir, pin_in. bits8.
Qed.

(** With both strobes released, an access that leaves the pins as they
    are leaves the board as it is. *)
Lemma react_same (a : pins) (b : board) :
  strobed MSB a = false -> strobed LSB a = false -> react a a b = b.
Proof.
  intros Hm Hl. unfold react, follow, hold, strobe. rewrite Hm, Hl. cbn [andb].
  destruct (we_on a); reflexivity.
Qed.

(** The strobes are released once the address has been latched. *)
Lemma strobes_after_setup (a : Z) (h : hw) :
  let s := replay (ev_read_setup a) h in
  strobed MSB (pins_of (cpu s)) = false /\ strobed LSB (pins_of (cpu s)) = false.
Proof.
  cbv zeta. rewrite pins_replay.
  destruct (pins_of (cpu h)) as [pm pl pr pw d v].
  split; reflexivity.
Qed.

Lemma read_bus_run (a : Z) (h : hw) :
  let s := replay (ev_read_setup a) h in
  let v := data_lines (pins_of (cpu s)) (brd s) in
  events (Bus.read_bus a) h = ev_read_setup a ++ ev_data_read v ++ [ev_deassert ReadEnable] /\
  result (Bus.read_bus a) h = v.
Proof.
  intros s v.
  destruct (strobes_after_setup a h) as [Hm Hl]. fold s in Hm, Hl.
  set (v1 := Z.land (pin_in (regD (cpu s)) (ext_data (pins_of (cpu s)) (brd s))) DATA_HI).
  set (s1 := apply_event (EvPinRead PortD DATA_HI v1) s).
  set (v2 := Z.land (pin_in (regB (cpu s1)) (ext_data (pins_of (cpu s1)) (brd s1))) DATA_LO).
  assert (Hs1 : s1 = s).
  { unfold s1, apply_event. cbn [cpu_step]. rewrite react_same by assumption.
    now destruct s. }
  assert (E : events (Bus.read_bus a) h
              = ev_read_setup a ++ [EvPinRead PortD DATA_HI v1; EvPinRead PortB DATA_LO v2]
                ++ [ev_deassert ReadEnable]) by reflexivity.
  assert (R : result (Bus.read_bus a) h = Z.lor v1 v2) by reflexivity.
  rewrite E, R. unfold v2. rewrite Hs1. unfold v1.
  rewrite sample_hi, sample_lo. fold v.
  split; [reflexivity|apply sample_both].
Qed.

(** C1: for every address, [read_bus] performs, in this order and nothing
    else: the switch of the data bus to output, the latching of the address
    through the data lines, the switch of the data bus back to input, the
    assertion of read-enable, two no-op cycles, the sampling of the data bus,
    the deassertion of read-enable; it returns the byte that was on the data
    lines at the sampling, and the state it leaves is the one these accesses
    lead to. *)
Theorem read_bus_steps (a : Z) (h : hw) :
  let setup := ev_data_output ++ ev_address a ++ ev_data_input
               ++ [ev_assert ReadEnable] ++ [EvNop; EvNop] in
  let s := replay setup h in
  let v := data_lines (pins_of (cpu s)) (brd s) in
  events (Bus.read_bus a) h = setup ++ ev_data_read v ++ [ev_deassert ReadEnable] /\
  result (Bus.read_bus a) h = v /\
  final (Bus.read_bus a) h = replay (events (Bus.read_bus a) h) h.
Proof.
  intros setup s v.
  destruct (read_bus_run a h) as [E R].
  split; [exact E|]. split; [exact R|]. apply faithful_read_bus.
Qed.

(** C6: in every run of [read_bus], exactly two no-op cycles lie between
    the assertion of read-enable and the sampling of the data bus, which is
    at least the configured minimum settle count. *)
Theorem read_settle_delay (a : Z) (h : hw) :
  settle_nops (events (Bus.read_bus a) h) = Some 2%nat /\ (MIN_SETTLE_NOPS <= 2)%nat.
Proof.
  split; [|apply Nat.le_refl].
  destruct (read_bus_run a h) as [-> _]. reflexivity.
Qed.

(** ** The order of the two latches *)

Lemma latched_write_bus (a d : Z) (pm pl pr pw : pin) (v : Z) (b : board) :
  latched (snd (prun (ev_write_bus a d) (mkPins pm pl pr pw 0xFF v, b)))
  = latched b ++ [(MSB, u8 (Z.shiftr a 8)); (LSB, u8 a)].
Proof.
  destruct pm as [om lm], pl as [ol ll], pr as [o l], pw as [ow lw],
           b as [b1 b2 b3 b4 b5 b6 b7 b8].
  destruct lm, ll, ow, lw.
  all: run_board.
  all: cbn [snd latched]; rewrite <- ?app_assoc; reflexivity.
Qed.

(** C5: whenever the controller drives the data bus, [write_bus] strobes
    the most significant byte of the address into its latch first and the
    least significant byte into its latch second, and strobes nothing else
    into a latch; for [write_bus 0x1234 0x00] the latch of the most
    significant byte holds 0x12 before the other latch holds 0x34. *)
Theorem address_msb_first (a d : Z) (h : hw) :
  data_driven (cpu h) = true ->
  latched (brd (final (Bus.write_bus a d) h))
  = latched (brd h) ++ [(MSB, u8 (Z.shiftr a 8)); (LSB, u8 a)].
Proof.
  intros Hd.
  rewrite (faithful_write_bus a d h), events_write_bus, brd_replay.
  change (data_driven (cpu h)) with (dat_dir (pins_of (cpu h)) =? 0xFF) in Hd.
  apply Z.eqb_eq in Hd.
  destruct (pins_of (cpu h)) as [pm pl pr pw dd v]; cbn [dat_dir] in Hd; subst dd.
  apply latched_write_bus.
Qed.

Lemma address_msb_first_witness :
  latched (brd (final (Bus.write_bus 0x1234 0x00) (final Bus.config_write reset_hw)))
  = [(MSB, 0x12); (LSB, 0x34)].
Proof.
  exact (address_msb_first 0x1234 0x00 (final Bus.config_write reset_hw) eq_refl).
Defined.

(** ** The enable lines across transactions *)

Lemma idle_enable_pins (c : mcu) :
  idle ReadEnable c = p_lvl (pin_re (pins_of c)) /\
  idle WriteEnable c = p_lvl (pin_we (pins_of c)).
Proof. split; reflexivity. Qed.

(** A write cycle leaves the read-enable pin alone and write-enable high. *)
Lemma enables_after_write (a d : Z) (h : hw) :
  pin_re (pins_of (cpu (final (Bus.write_bus a d) h))) = pin_re (pins_of (cpu h)) /\
  p_lvl (pin_we (pins_of (cpu (final (Bus.write_bus a d) h)))) = true.
Proof.
  rewrite (final_pins _ _ (faithful_write_bus a d)), events_write_bus.
  destruct (pins_of (cpu h)) as [pm pl [o l] [ow lw] dd v].
  split; reflexivity.
Qed.

Lemma pins_run_read (a x : Z) (p : pins) :
  let p' := pins_run (ev_read_setup a ++ ev_data_read x ++ [ev_deassert ReadEnable]) p in
  pin_we p' = pin_we p /\ p_lvl (pin_re p') = true.
Proof.
  destruct p as [pm pl [o l] [ow lw] dd v].
  split; reflexivity.
Qed.

(** A read cycle leaves the write-enable pin alone and read-enable high. *)
Lemma enables_after_read (a : Z) (h : hw) :
  pin_we (pins_of (cpu (final (Bus.read_bus a) h))) = pin_we (pins_of (cpu h)) /\
  p_lvl (pin_re (pins_of (cpu (final (Bus.read_bus a) h)))) = true.
Proof.
  rewrite (final_pins _ _ (faithful_read_bus a)).
  destruct (read_bus_run a h) as [-> _].
  apply pins_run_read.
Qed.

Lemma bus_idle_transaction (t : transaction) (h : hw) :
  bus_idle (cpu h) = true -> bus_idle (cpu (final (run_transaction t) h)) = true.
Proof.
  unfold bus_idle. intros Hi.
  apply andb_true_iff in Hi. destruct Hi as [Hr Hw].
  destruct (idle_enable_pins (cpu h)) as [Er Ew]. rewrite Er in Hr. rewrite Ew in Hw.
  destruct t as [a|a d]; cbn [run_transaction].
  - rewrite final_bind. change (final (ret tt) ?x) with x.
    destruct (idle_enable_pins (cpu (final (Bus.read_bus a) h))) as [-> ->].
    destruct (enables_after_read a h) as [-> ->]. now rewrite Hw.
  - destruct (idle_enable_pins (cpu (final (Bus.write_bus a d) h))) as [-> ->].
    destruct (enables_after_write a d h) as [-> ->]. now rewrite Hr.
Qed.

(** C9: [write_bus] returns with write-enable deasserted and [read_bus]
    returns with read-enable deasserted, whatever the state before; so from
    a state with both enable lines deasserted, every transaction of any
    sequence of transactions begins and ends with both enable lines
    deasserted, and so does the sequence. *)
Theorem transactions_restore_idle :
  (forall a d h, idle WriteEnable (cpu (final (Bus.write_bus a d) h)) = true) /\
  (forall a h, idle ReadEnable (cpu (final (Bus.read_bus a) h)) = true) /\
  (forall ts h, bus_idle (cpu h) = true ->
                Forall (fun s => bus_idle (cpu s) = true) (boundary_states ts h) /\
                bus_idle (cpu (final (run_transactions ts) h)) = true).
Proof.
  split; [|split].
  - intros a d h.
    destruct (idle_enable_pins (cpu (final (Bus.write_bus a d) h))) as [_ ->].
    apply enables_after_write.
  - intros a h.
    destruct (idle_enable_pins (cpu (final (Bus.read_bus a) h))) as [-> _].
    apply enables_after_read.
  - induction ts as [|t ts IH]; intros h Hi; cbn [boundary_states run_transactions].
    + split; [constructor; [exact Hi|constructor]|exact Hi].
    + rewrite final_bind.
      destruct (IH _ (bus_idle_transaction t h Hi)) as [Hall Hend].
      split; [constructor; assumption|exact Hend].
Qed.

Lemma transactions_restore_idle_witness :
  Forall (fun s => bus_idle (cpu s) = true)
         (boundary_states [TWrite 0x0000 0xAB; TRead 0x0000; TWrite 0x1FFF 0x01]
                          (final Bus.config_write reset_hw)) /\
  bus_idle (cpu (final (run_transactions [TWrite 0x0000 0xAB; TRead 0x0000; TWrite 0x1FFF 0x01])
                       (final Bus.config_write reset_hw))) = true.
Proof.
  exact (proj2 (proj2 transactions_restore_idle)
           [TWrite 0x0000 0xAB; TRead 0x0000; TWrite 0x1FFF 0x01]
           (final Bus.config_write reset_hw) eq_refl).
Defined.

(** ** No contention on the data lines during a read cycle *)

Lemma no_contention_pins (a x : Z) (p : pins) :
  re_on p = false -> Z.land (dat_dir p) 0xFF = dat_dir p ->
  Forall (fun q => re_on q && negb (dat_dir q =? 0) = false)
         (pins_along (ev_read_setup a ++ ev_data_read x ++ [ev_deassert ReadEnable]) p).
Proof.
  destruct p as [pm pl [o l] pw dd v].
  intros Hre Hd. cbn [dat_dir] in Hd.
  unfold re_on in Hre; cbn [pin_re l_pol ReadEnable pin_asserted pin_low p_out p_lvl] in Hre.
  assert (Hz : Z.ldiff (Z.ldiff (Z.lor (Z.lor dd (Z.land DATA_HI DATA_HI))
                                       (Z.land DATA_LO DATA_LO))
                                (Z.land DATA_HI DATA_HI)) (Z.land DATA_LO DATA_LO) = 0).
  { rewrite <- Hd. bits8. }
  set (L := pins_along _ _).
  cbv -[Z.land Z.lor Z.ldiff Z.eqb Z.shiftr DATA_HI DATA_LO] in L. subst L.
  repeat (constructor;
          [unfold re_on;
           cbn [pin_re dat_dir l_pol ReadEnable pin_asserted pin_low p_out p_lvl];
           rewrite ?Hre, ?Hz; destruct o; reflexivity|]).
  constructor.
Qed.

(** Read-enable is deasserted between the calls of any program of driver
    calls: the hypothesis of the next theorem holds at every call of
    [read_bus] such a program makes. *)
Lemma asserted_re_pins (c : mcu) : asserted ReadEnable c = pin_low (pin_re (pins_of c)).
Proof. reflexivity. Qed.

Lemma re_released_after_sequence (s : list (Z * Z)) (ms : Z) (h : hw) :
  asserted ReadEnable (cpu (final (Bus.config_write ;; issue s ms) h)) = false.
Proof.
  rewrite final_bind.
  destruct (pins_after_issue s ms _ _ (pins_after_config_write h)) as [v' P].
  rewrite asserted_re_pins, P. reflexivity.
Qed.

Lemma re_released_after_call (c : call) (h : hw) :
  asserted ReadEnable (cpu h) = false ->
  asserted ReadEnable (cpu (final (run_call c) h)) = false.
Proof.
  intros Hre. destruct c as [| |a d|a| | |]; cbn [run_call].
  - rewrite asserted_re_pins, pins_after_config_write. reflexivity.
  - rewrite asserted_re_pins, (final_pins _ _ faithful_config_read), events_config_read.
    destruct (pins_of (cpu h)) as [pm pl [o l] pw dd v]. reflexivity.
  - rewrite asserted_re_pins. destruct (enables_after_write a d h) as [-> _].
    exact Hre.
  - rewrite final_bind. change (final (ret tt) ?x) with x.
    rewrite asserted_re_pins. destruct (enables_after_read a h) as [_ Hl].
    unfold pin_low. rewrite Hl. apply andb_false_r.
  - rewrite erase_is_issue. apply re_released_after_sequence.
  - rewrite unlock_is_issue. apply re_released_after_sequence.
  - rewrite lock_is_issue. apply re_released_after_sequence.
Qed.

Lemma re_released_between_calls (cs : list call) (h : hw) :
  asserted ReadEnable (cpu h) = false ->
  asserted ReadEnable (cpu (final (run_calls cs) h)) = false.
Proof.
  revert h; induction cs as [|c cs IH]; intros h Hre; [exact Hre|].
  cbn [run_calls]. rewrite final_bind. apply IH. now apply re_released_after_call.
Qed.

Lemma re_released_from_reset (cs : list call) (b : board) :
  asserted ReadEnable (cpu (final (run_calls cs) (mkHw reset_mcu b))) = false.
Proof. now apply re_released_between_calls. Qed.

Lemma no_contention_read (a : Z) (h : hw) :
  asserted ReadEnable (cpu h) = false ->
  Forall (fun s => contention (cpu s) = false) (states_along (events (Bus.read_bus a) h) h).
Proof.
  intros Hre.
  destruct (read_bus_run a h) as [-> _].
  apply (pins_states_along (fun q => re_on q && negb (dat_dir q =? 0) = false)).
  apply no_contention_pins; [exact Hre|apply data_dir_byte].
Qed.

(** The hypothesis of [no_contention_read] holds at every call of
    [read_bus] in a program of driver calls started after reset. *)
Corollary no_contention_in_programs (cs : list call) (b : board) (a : Z) :
  let h := final (run_calls cs) (mkHw reset_mcu b) in
  Forall (fun s => contention (cpu s) = false) (states_along (events (Bus.read_bus a) h) h).
Proof. intros h. apply no_contention_read. apply re_released_from_reset. Qed.

(** When read-enable is high on entry, it is high in every state of a read
    cycle in which the controller drives a line of the data bus. *)
Lemma read_enable_high_pins (a x : Z) (p : pins) :
  p_lvl (pin_re p) = true -> Z.land (dat_dir p) 0xFF = dat_dir p ->
  Forall (fun q => (dat_dir q =? 0) = true \/ p_lvl (pin_re q) = true)
         (pins_along (ev_read_setup a ++ ev_data_read x ++ [ev_deassert ReadEnable]) p).
Proof.
  destruct p as [pm pl [o l] pw dd v].
  intros Hl Hd. cbn [dat_dir pin_re p_lvl] in Hl, Hd. subst l.
  assert (Hz : Z.ldiff (Z.ldiff (Z.lor (Z.lor dd (Z.land DATA_HI DATA_HI))
                                       (Z.land DATA_LO DATA_LO))
                                (Z.land DATA_HI DATA_HI)) (Z.land DATA_LO DATA_LO) = 0).
  { rewrite <- Hd. bits8. }
  set (L := pins_along _ _).
  cbv -[Z.land Z.lor Z.ldiff Z.eqb Z.shiftr DATA_HI DATA_LO] in L. subst L.
  repeat (constructor;
          [cbn [pin_re dat_dir p_lvl];
           first [right; reflexivity | left; rewrite Hz; reflexivity]|]).
  constructor.
Qed.

Lemma read_enable_high_while_driving (a : Z) (h : hw) :
  idle ReadEnable (cpu h) = true ->
  Forall (fun s => data_released (cpu s) = true \/ idle ReadEnable (cpu s) = true)
         (states_along (events (Bus.read_bus a) h) h).
Proof.
  intros Hi.
  destruct (read_bus_run a h) as [-> _].
  apply (pins_states_along (fun q => (dat_dir q =? 0) = true \/ p_lvl (pin_re q) = true)).
  apply read_enable_high_pins; [exact Hi|apply data_dir_byte].
Qed.

(** C10: when read-enable is not asserted on entry, in no state that a run
    of [read_bus] passes through, from the first to the last, is read-enable
    asserted while the controller drives a line of the data bus; and
    read-enable is deasserted when [read_bus] returns. *)
Theorem read_bus_no_contention (a : Z) (h : hw) :
  asserted ReadEnable (cpu h) = false ->
  Forall (fun s => contention (cpu s) = false) (states_along (events (Bus.read_bus a) h) h) /\
  idle ReadEnable (cpu (final (Bus.read_bus a) h)) = true.
Proof.
  intros Hre. split.
  - now apply no_contention_read.
  - destruct (idle_enable_pins (cpu (final (Bus.read_bus a) h))) as [-> _].
    apply enables_after_read.
Qed.

Lemma read_bus_no_contention_witness :
  Forall (fun s => contention (cpu s) = false)
         (states_along (events (Bus.read_bus 0x1234) (final Bus.config_read reset_hw))
                       (final Bus.config_read reset_hw)) /\
  idle ReadEnable (cpu (final (Bus.read_bus 0x1234) (final Bus.config_read reset_hw))) = true.
Proof.
  exact (read_bus_no_contention 0x1234 (final Bus.config_read reset_hw) eq_refl).
Defined.

(** ** Writing a byte and reading it back *)

Lemma prun_config_read (om ol : bool) (pr : pin) (v : Z) (b : board) :
  prun ev_config_read
       (mkPins (mkPin om false) (mkPin ol false) pr (mkPin true true) 0xFF v, b)
  = (read_mode_pins v, b).
Proof.
  destruct pr as [o l], b as [b1 b2 b3 b4 b5 b6 b7 b8].
  run_board. reflexivity.
Qed.

Lemma prun_read_setup (a v : Z) (b : board) :
  prun (ev_read_setup a) (read_mode_pins v, b)
  = (mkPins (mkPin true false) (mkPin true false) (mkPin true false) (mkPin true true) 0
            (wr_val (wr_val v (u8 (Z.shiftr a 8))) (u8 a)),
     board_addressed a b).
Proof.
  destruct b as [b1 b2 b3 b4 b5 b6 b7 b8].
  unfold read_mode_pins. run_board.
  unfold board_addressed; cbn [latched protection cells writes stray wr_addr].
  rewrite <- ?app_assoc. reflexivity.
Qed.

(** With read-enable asserted and the data bus released, the lines carry
    the cell the latches address. *)
Lemma lines_read (pm pl pw : pin) (v : Z) (b : board) :
  data_lines (mkPins pm pl (mkPin true false) pw 0 v) b = u8 (cells b (cell_of (bus_addr b))).
Proof. rewrite lines_released. reflexivity. Qed.

Lemma store_same (a d : Z) (m : Z -> Z) : store a d m (cell_of a) = d.
Proof. unfold store. now rewrite Z.eqb_refl. Qed.

Lemma lines_view (s : hw) :
  data_lines (pins_of (cpu s)) (brd s) = data_lines (fst (view s)) (snd (view s)).
Proof. reflexivity. Qed.

(** The byte read back after a write of [d] at [a], whatever [a] and [d]:
    the low eight bits of [d]. *)
Lemma roundtrip_u8 (a d : Z) (h : hw) :
  configured_for_write (cpu h) = true ->
  protection (brd h) = false ->
  result (Bus.write_bus a d ;; Bus.config_read ;; Bus.read_bus a) h = u8 d.
Proof.
  intros Hc Hp.
  rewrite !result_bind.
  destruct (read_bus_run a (final Bus.config_read (final (Bus.write_bus a d) h))) as [_ ->].
  rewrite lines_view, view_replay.
  rewrite (view_final _ _ faithful_config_read), events_config_read.
  rewrite (view_final _ _ (faithful_write_bus a d)), events_write_bus.
  unfold configured_for_write in Hc.
  apply andb_true_iff in Hc. destruct Hc as [Hc Hwl].
  apply andb_true_iff in Hc. destruct Hc as [Hd Hwo].
  change (data_driven (cpu h)) with (dat_dir (pins_of (cpu h)) =? 0xFF) in Hd.
  change (is_output WriteEnable (cpu h)) with (p_out (pin_we (pins_of (cpu h)))) in Hwo.
  change (idle WriteEnable (cpu h)) with (p_lvl (pin_we (pins_of (cpu h)))) in Hwl.
  apply Z.eqb_eq in Hd.
  unfold view.
  destruct (pins_of (cpu h)) as [[om lm] [ol ll] pr [ow lw] dd v].
  cbn [dat_dir pin_we p_out p_lvl] in Hd, Hwo, Hwl. subst dd ow lw.
  rewrite prun_write_bus, prun_config_read, prun_read_setup.
  cbn [fst snd]. rewrite lines_read.
  unfold board_addressed, board_after_write, bus_addr.
  cbn [latch_msb latch_lsb cells protection]. rewrite Hp.
  fold (latched_addr a). rewrite store_same. apply u8_idem.
Qed.

(** C8: with the bus set up for write cycles and the device unprotected,
    for every address within the device and every byte, a write of the byte
    at the address, then [config_read], then a read of the address, returns
    the byte. *)
Theorem write_read_roundtrip (a d : Z) (h : hw) :
  configured_for_write (cpu h) = true ->
  protection (brd h) = false ->
  0 <= a < DEVICE_SIZE ->
  0 <= d < 256 ->
  result (Bus.write_bus a d ;; Bus.config_read ;; Bus.read_bus a) h = d.
Proof.
  intros Hc Hp _ Hd.
  rewrite (roundtrip_u8 a d h Hc Hp). now apply u8_byte.
Qed.

Lemma write_read_roundtrip_witness :
  result (Bus.write_bus 0x1234 0x5A ;; Bus.config_read ;; Bus.read_bus 0x1234)
         (final Bus.config_write reset_hw) = 0x5A.
Proof.
  apply (write_read_roundtrip 0x1234 0x5A (final Bus.config_write reset_hw));
    [reflexivity | reflexivity | unfold DEVICE_SIZE; lia | lia].
Defined.

(** ** Runs on the blank board *)

Example write_bus_accesses :
  events (Bus.write_bus 0x1234 0x00) reset_hw =
    [EvPortWrite PortD 0xF0 0x10; EvPortWrite PortB 0x0F 0x02;
     EvPortWrite PortC 0x20 0x20; EvPortWrite PortC 0x20 0x00;
     EvPortWrite PortD 0xF0 0x30; EvPortWrite PortB 0x0F 0x04;
     EvPortWrite PortC 0x10 0x10; EvPortWrite PortC 0x10 0x00;
     EvPortWrite PortC 0x04 0x00;
     EvPortWrite PortD 0xF0 0x00; EvPortWrite PortB 0x0F 0x00;
     EvPortWrite PortC 0x04 0x04].
Proof. reflexivity. Qed.

Example erase_on_blank_board :
  writes (brd (final erase reset_hw)) = ERASE_SEQ /\
  cpu (final erase reset_hw)
  = mkMcu (mkRegs 0x0F 0x00) (mkRegs 0x3C 0x0C) (mkRegs 0xF0 0x10).
Proof. split; vm_compute; reflexivity. Qed.

Example read_blank_cell :
  result (Bus.config_read ;; Bus.read_bus 0x0000) reset_hw = 0xFF.
Proof. vm_compute. reflexivity. Qed.

(** * Further properties of the driver *)

(** ** Arguments wider than the bus *)

Lemma u8_u16 (a : Z) : u8 (u16 a) = u8 a.
Proof.
  unfold u8, u16. rewrite <- Z.land_assoc. reflexivity.
Qed.

Lemma u8_shiftr_u16 (a : Z) : u8 (Z.shiftr (u16 a) 8) = u8 (Z.shiftr a 8).
Proof.
  unfold u8, u16. change 255 with (Z.ones 8). change 65535 with (Z.ones 16).
  apply Z.bits_inj'; intros i Hi.
  rewrite !Z.land_spec, !Z.shiftr_spec, Z.land_spec by lia.
  destruct (Z.ltb_spec i 8) as [H8|H8].
  - rewrite (Z.ones_spec_low 16 (i + 8)) by lia. now rewrite andb_true_r.
  - rewrite (Z.ones_spec_high 8 i) by lia. now rewrite !andb_false_r.
Qed.

Lemma land_u8_hi (d : Z) : Z.land (u8 d) DATA_HI = Z.land d DATA_HI.
Proof. bits8. Qed.

Lemma land_u8_lo (d : Z) : Z.land (u8 d) DATA_LO = Z.land d DATA_LO.
Proof. bits8. Qed.

Lemma ev_address_wrap (a : Z) : ev_address (u16 a) = ev_address a.
Proof. unfold ev_address. now rewrite u8_shiftr_u16, u8_u16. Qed.

Lemma ev_write_bus_wrap (a d : Z) : ev_write_bus (u16 a) (u8 d) = ev_write_bus a d.
Proof.
  unfold ev_write_bus, ev_data_write.
  now rewrite ev_address_wrap, land_u8_hi, land_u8_lo.
Qed.

Lemma ev_read_setup_wrap (a : Z) : ev_read_setup (u16 a) = ev_read_setup a.
Proof. unfold ev_read_setup. now rewrite ev_address_wrap. Qed.

(** X4: an address wider than 16 bits or a data byte wider than 8 bits is
    used modulo its width: [write_bus] makes the same accesses and leaves the
    same state as for the truncated arguments, and [read_bus] returns the
    same byte as for the truncated address. *)
Theorem bus_cycles_wrap (a d : Z) (h : hw) :
  events (Bus.write_bus a d) h = events (Bus.write_bus (u16 a) (u8 d)) h /\
  final (Bus.write_bus a d) h = final (Bus.write_bus (u16 a) (u8 d)) h /\
  result (Bus.read_bus a) h = result (Bus.read_bus (u16 a)) h.
Proof.
  split; [|split].
  - now rewrite !events_write_bus, ev_write_bus_wrap.
  - rewrite (faithful_write_bus a d h), (faithful_write_bus (u16 a) (u8 d) h).
    now rewrite !events_write_bus, ev_write_bus_wrap.
  - destruct (read_bus_run a h) as [_ ->].
    destruct (read_bus_run (u16 a) h) as [_ ->].
    now rewrite ev_read_setup_wrap.
Qed.

(** ** The byte a read cycle returns *)

Lemma data_lines_byte (c : mcu) (b : board) :
  Z.land (data_lines (pins_of c) b) 0xFF = data_lines (pins_of c) b.
Proof.
  unfold data_lines. set (e := ext_data (pins_of c) b). clearbody e.
  unfold pins_of, dat_val, dat_dir, data_out, data_dir. bits8.
Qed.

(** X5: whatever the state and the address, the value [read_bus] returns
    is a byte. *)
Theorem read_bus_byte (a : Z) (h : hw) : 0 <= result (Bus.read_bus a) h < 256.
Proof.
  destruct (read_bus_run a h) as [_ ->].
  rewrite <- data_lines_byte. change 255 with (Z.ones 8).
  rewrite Z.land_ones by lia. change (2 ^ 8) with 256.
  apply Z.mod_pos_bound. lia.
Qed.

(** ** The direction of the data bus *)

Lemma pins_after_config_read (h : hw) :
  pins_of (cpu (final Bus.config_read h)) = read_mode_pins (data_out (cpu h)).
Proof.
  rewrite (final_pins _ _ faithful_config_read), events_config_read.
  pose proof (data_dir_byte (cpu h)) as Hd.
  change (data_dir (cpu h)) with (dat_dir (pins_of (cpu h))) in Hd.
  change (data_out (cpu h)) with (dat_val (pins_of (cpu h))).
  destruct (pins_of (cpu h)) as [pm pl pr pw d v]; cbn [dat_dir dat_val] in *.
  run_pins. unfold read_mode_pins. f_equal.
  rewrite <- Hd. bits8.
Qed.

Lemma read_mode_facts (c : mcu) (v : Z) :
  pins_of c = read_mode_pins v ->
  data_released c = true /\ data_driven c = false /\
  is_output MSBLatch c = true /\ is_output LSBLatch c = true /\
  idle MSBLatch c = true /\ idle LSBLatch c = true /\
  is_output ReadEnable c = true /\ is_output WriteEnable c = true /\
  idle ReadEnable c = true /\ idle WriteEnable c = true.
Proof.
  intros P.
  change ((dat_dir (pins_of c) =? 0) = true /\ (dat_dir (pins_of c) =? 0xFF) = false /\
          p_out (pin_msb (pins_of c)) = true /\ p_out (pin_lsb (pins_of c)) = true /\
          pin_idle ActiveHigh (pin_msb (pins_of c)) = true /\
          pin_idle ActiveHigh (pin_lsb (pins_of c)) = true /\
          p_out (pin_re (pins_of c)) = true /\ p_out (pin_we (pins_of c)) = true /\
          pin_idle ActiveLow (pin_re (pins_of c)) = true /\
          pin_idle ActiveLow (pin_we (pins_of c)) = true).
  rewrite P. repeat split.
Qed.

(** X1: whatever the state before, [config_read] releases the whole data
    bus (no data pin is an output), and leaves the strobes of both address
    latches and both enable lines outputs in their idle state. *)
Theorem config_read_releases_data (h : hw) :
  let c := cpu (final Bus.config_read h) in
  data_released c = true /\ data_driven c = false /\
  is_output MSBLatch c = true /\ is_output LSBLatch c = true /\
  idle MSBLatch c = true /\ idle LSBLatch c = true /\
  is_output ReadEnable c = true /\ is_output WriteEnable c = true /\
  idle ReadEnable c = true /\ idle WriteEnable c = true.
Proof.
  exact (read_mode_facts _ _ (pins_after_config_read h)).
Qed.

Lemma dir_view (s : hw) : data_dir (cpu s) = dat_dir (fst (view s)).
Proof. reflexivity. Qed.

Lemma released_view (s : hw) : data_released (cpu s) = (dat_dir (fst (view s)) =? 0).
Proof. reflexivity. Qed.

Lemma dir_after_read (a x dd v : Z) (pm pl pr pw : pin) :
  Z.land dd 0xFF = dd ->
  dat_dir (pins_run (ev_read_setup a ++ ev_data_read x ++ [ev_deassert ReadEnable])
                    (mkPins pm pl pr pw dd v)) = 0.
Proof.
  intros Hd.
  change (dat_dir (pins_run (ev_read_setup a ++ ev_data_read x ++ [ev_deassert ReadEnable])
                            (mkPins pm pl pr pw dd v)))
    with (Z.ldiff (Z.ldiff (Z.lor (Z.lor dd (Z.land DATA_HI DATA_HI))
                                  (Z.land DATA_LO DATA_LO))
                           (Z.land DATA_HI DATA_HI)) (Z.land DATA_LO DATA_LO)).
  rewrite <- Hd. bits8.
Qed.

(** X6: whatever the state before (also when the bus was set up for write
    cycles), [read_bus] returns with the whole data bus released, so the bus
    is not set up for write cycles afterwards. *)
Theorem read_bus_releases_data (a : Z) (h : hw) :
  data_released (cpu (final (Bus.read_bus a) h)) = true /\
  configured_for_write (cpu (final (Bus.read_bus a) h)) = false.
Proof.
  assert (D : dat_dir (fst (view (final (Bus.read_bus a) h))) = 0).
  { rewrite (view_final _ _ (faithful_read_bus a)), prun_pins.
    destruct (read_bus_run a h) as [-> _].
    pose proof (data_dir_byte (cpu h)) as Hd. rewrite dir_view in Hd.
    destruct (fst (view h)) as [pm pl pr pw dd v]. cbn [dat_dir] in Hd.
    now apply dir_after_read. }
  split.
  - rewrite released_view, D. reflexivity.
  - rewrite configured_view, D. reflexivity.
Qed.

(** X7: [write_bus] never changes the direction of a data pin: the data
    bus is driven after it exactly when it was driven before, released
    exactly when it was released. *)
Theorem write_bus_keeps_direction (a d : Z) (h : hw) :
  data_dir (cpu (final (Bus.write_bus a d) h)) = data_dir (cpu h) /\
  data_driven (cpu (final (Bus.write_bus a d) h)) = data_driven (cpu h) /\
  data_released (cpu (final (Bus.write_bus a d) h)) = data_released (cpu h).
Proof.
  assert (D : data_dir (cpu (final (Bus.write_bus a d) h)) = data_dir (cpu h)).
  { rewrite !dir_view, (view_final _ _ (faithful_write_bus a d)), events_write_bus, prun_pins.
    destruct (fst (view h)) as [pm pl pr pw dd v]. reflexivity. }
  split; [exact D|]. unfold data_driven, data_released. now rewrite D.
Qed.

Lemma write_bus_cycle_witness :
  brd (final (Bus.write_bus 0x1234 0x5A) (final Bus.config_write reset_hw))
  = board_after_write 0x1234 0x5A (brd (final Bus.config_write reset_hw)) /\
  writes (brd (final (Bus.write_bus 0x1234 0x5A) (final Bus.config_write reset_hw)))
  = writes (brd (final Bus.config_write reset_hw)) ++ [(u16 0x1234, u8 0x5A)] /\
  configured_for_write
    (cpu (final (Bus.write_bus 0x1234 0x5A) (final Bus.config_write reset_hw))) = true.
Proof.
  exact (write_bus_cycle 0x1234 0x5A (final Bus.config_write reset_hw) eq_refl).
Defined.

(** ** The command sequences *)

(** X2: [unlock] performs the configuration for writing, then exactly the
    six write cycles (0x5555,0xAA), (0xAAAA,0x55), (0x5555,0x80),
    (0x5555,0xAA), (0xAAAA,0x55), (0x5555,0x20) in this order, then a delay
    of 10 ms, which is the last thing it does; the device sees these six
    write cycles and no other after the configuration. *)
Theorem unlock_sequence (h : hw) :
  events unlock h = events Bus.config_write h ++ ev_sequence UNLOCK_SEQ ++ [EvDelay 10] /\
  writes (brd (final unlock h)) = writes (brd (final Bus.config_write h)) ++ UNLOCK_SEQ /\
  10 <= trailing_delay (events unlock h).
Proof.
  rewrite unlock_is_issue.
  split; [|split].
  - rewrite events_bind, events_issue. reflexivity.
  - rewrite final_bind.
    rewrite (writes_issue _ _ _ _ (pins_after_config_write h)). reflexivity.
  - rewrite events_bind, events_issue, events_config_write.
    unfold trailing_delay. rewrite !rev_app_distr. cbn. lia.
Qed.

Lemma write_mode_configured (c : mcu) (v : Z) :
  pins_of c = write_mode_pins v ->
  configured_for_write c = true /\ bus_idle c = true.
Proof.
  intros P.
  change ((dat_dir (pins_of c) =? 0xFF) && p_out (pin_we (pins_of c))
          && p_lvl (pin_we (pins_of c)) = true /\
          p_lvl (pin_re (pins_of c)) && p_lvl (pin_we (pins_of c)) = true).
  rewrite P. split; reflexivity.
Qed.

Lemma sequence_leaves_write_mode (s : list (Z * Z)) (ms : Z) (h : hw) :
  configured_for_write (cpu (final (Bus.config_write ;; issue s ms) h)) = true /\
  bus_idle (cpu (final (Bus.config_write ;; issue s ms) h)) = true.
Proof.
  rewrite final_bind.
  destruct (pins_after_issue s ms _ _ (pins_after_config_write h)) as [v' P].
  exact (write_mode_configured _ _ P).
Qed.

(** X12: whatever the state before, each of [erase], [unlock] and [lock]
    returns with the bus set up for write cycles and both enable lines
    deasserted. *)
Theorem sequences_leave_write_mode (h : hw) :
  (configured_for_write (cpu (final erase h)) = true /\ bus_idle (cpu (final erase h)) = true) /\
  (configured_for_write (cpu (final unlock h)) = true /\ bus_idle (cpu (final unlock h)) = true) /\
  (configured_for_write (cpu (final lock h)) = true /\ bus_idle (cpu (final lock h)) = true).
Proof.
  rewrite erase_is_issue, unlock_is_issue, lock_is_issue.
  split; [|split]; apply sequence_leaves_write_mode.
Qed.

(** ** The enable lines across driver calls *)

Lemma asserted_we_pins (c : mcu) : asserted WriteEnable c = pin_low (pin_we (pins_of c)).
Proof. reflexivity. Qed.

Lemma we_released_after_sequence (s : list (Z * Z)) (ms : Z) (h : hw) :
  asserted WriteEnable (cpu (final (Bus.config_write ;; issue s ms) h)) = false.
Proof.
  rewrite final_bind.
  destruct (pins_after_issue s ms _ _ (pins_after_config_write h)) as [v' P].
  rewrite asserted_we_pins, P. reflexivity.
Qed.

Lemma we_released_after_call (c : call) (h : hw) :
  asserted WriteEnable (cpu h) = false ->
  asserted WriteEnable (cpu (final (run_call c) h)) = false.
Proof.
  intros Hwe. destruct c as [| |a d|a| | |]; cbn [run_call].
  - rewrite asserted_we_pins, pins_after_config_write. reflexivity.
  - rewrite asserted_we_pins, pins_after_config_read. reflexivity.
  - rewrite asserted_we_pins. destruct (enables_after_write a d h) as [_ Hl].
    unfold pin_low. rewrite Hl. apply andb_false_r.
  - rewrite final_bind. change (final (ret tt) ?x) with x.
    rewrite asserted_we_pins. destruct (enables_after_read a h) as [-> _].
    exact Hwe.
  - rewrite erase_is_issue. apply we_released_after_sequence.
  - rewrite unlock_is_issue. apply we_released_after_sequence.
  - rewrite lock_is_issue. apply we_released_after_sequence.
Qed.

(** X14: from a state in which neither enable line is asserted, after any
    sequence of calls of [config_write], [config_read], [write_bus],
    [read_bus], [erase], [unlock] and [lock], neither enable line is
    asserted. *)
Theorem enables_released_between_calls (cs : list call) (h : hw) :
  asserted ReadEnable (cpu h) = false ->
  asserted WriteEnable (cpu h) = false ->
  asserted ReadEnable (cpu (final (run_calls cs) h)) = false /\
  asserted WriteEnable (cpu (final (run_calls cs) h)) = false.
Proof.
  revert h; induction cs as [|c cs IH]; intros h Hre Hwe; [now split|].
  cbn [run_calls]. rewrite final_bind. apply IH.
  - now apply re_released_after_call.
  - now apply we_released_after_call.
Qed.

Lemma enables_released_between_calls_witness :
  asserted ReadEnable
    (cpu (final (run_calls [CallConfigRead; CallRead 0x0010; CallUnlock; CallWrite 0x0010 0x7E;
                            CallLock; CallConfigRead; CallRead 0x0010]) reset_hw)) = false /\
  asserted WriteEnable
    (cpu (final (run_calls [CallConfigRead; CallRead 0x0010; CallUnlock; CallWrite 0x0010 0x7E;
                            CallLock; CallConfigRead; CallRead 0x0010]) reset_hw)) = false.
Proof.
  exact (enables_released_between_calls
           [CallConfigRead; CallRead 0x0010; CallUnlock; CallWrite 0x0010 0x7E;
            CallLock; CallConfigRead; CallRead 0x0010] reset_hw eq_refl eq_refl).
Defined.

(** ** Configuration and the device *)

Lemma config_keeps_device (evs : list event) (p : pins) (b : board) :
  evs = ev_config_write \/ evs = ev_config_read ->
  we_on p = false ->
  same_device b (snd (prun evs (p, b))).
Proof.
  intros Hev Hwe.
  destruct p as [[om lm] [ol ll] [o l] [ow lw] dd v].
  destruct b as [b1 b2 b3 b4 b5 b6 b7 b8].
  unfold we_on in Hwe; cbn [pin_we l_pol WriteEnable pin_asserted pin_low p_out p_lvl] in Hwe.
  destruct Hev as [-> | ->].
  all: destruct ow, lw; try discriminate Hwe; clear Hwe; destruct lm, ll.
  all: run_board; repeat split.
Qed.



(** ** What a read cycle does to the board *)

Lemma dir_driven (dd : Z) :
  Z.land dd 0xFF = dd ->
  Z.lor (Z.lor dd (Z.land DATA_HI DATA_HI)) (Z.land DATA_LO DATA_LO) = 0xFF.
Proof. intros Hd. rewrite <- Hd. bits8. Qed.

(** The switch of the data bus to output. *)
Lemma read_stage1 (pm pl pr pw : pin) (dd v : Z) (b : board) :
  Z.land dd 0xFF = dd ->
  fst (prun ev_data_output (mkPins pm pl pr pw dd v, b)) = mkPins pm pl pr pw 0xFF v /\
  same_device b (snd (prun ev_data_output (mkPins pm pl pr pw dd v, b))).
Proof.
  intros Hd.
  destruct pm as [om lm], pl as [ol ll], pr as [o l], pw as [ow lw],
           b as [b1 b2 b3 b4 b5 b6 b7 b8].
  destruct lm, ll, ow, lw.
  all: run_board; cbn [fst snd]; rewrite (dir_driven dd Hd); repeat split.
Qed.

(** The latching of the address, the switch back to input, the assertion
    of read-enable and the settle delay. *)
Lemma read_stage2 (a : Z) (om lm ol ll o lr ow lw : bool) (v : Z) (b : board) :
  fst (prun (ev_address a ++ ev_data_input ++ [ev_assert ReadEnable] ++ [EvNop; EvNop])
            (mkPins (mkPin om lm) (mkPin ol ll) (mkPin o lr) (mkPin ow lw) 0xFF v, b))
  = mkPins (mkPin om false) (mkPin ol false) (mkPin o false) (mkPin ow lw) 0
           (wr_val (wr_val v (u8 (Z.shiftr a 8))) (u8 a)) /\
  let b' := snd (prun (ev_address a ++ ev_data_input ++ [ev_assert ReadEnable] ++ [EvNop; EvNop])
                      (mkPins (mkPin om lm) (mkPin ol ll) (mkPin o lr) (mkPin ow lw) 0xFF v, b)) in
  latch_msb b' = u8 (Z.shiftr a 8) /\ latch_lsb b' = u8 a /\ same_device b b'.
Proof.
  destruct b as [b1 b2 b3 b4 b5 b6 b7 b8].
  destruct lm, ll, ow, lw.
  all: run_board; repeat split.
Qed.

(** The sampling and the deassertion of read-enable. *)
Lemma read_stage3 (x : Z) (om ol o ow lw : bool) (v : Z) (b : board) :
  prun (ev_data_read x ++ [ev_deassert ReadEnable])
       (mkPins (mkPin om false) (mkPin ol false) (mkPin o false) (mkPin ow lw) 0 v, b)
  = (mkPins (mkPin om false) (mkPin ol false) (mkPin o true) (mkPin ow lw) 0 v, b).
Proof.
  destruct b as [b1 b2 b3 b4 b5 b6 b7 b8].
  destruct ow, lw.
  all: run_board; reflexivity.
Qed.

Lemma same_device_trans (b1 b2 b3 : board) :
  same_device b1 b2 -> same_device b2 b3 -> same_device b1 b3.
Proof.
  intros (C1 & P1 & W1) (C2 & P2 & W2).
  repeat split; congruence.
Qed.

(** The pins and the board at the sampling of a read cycle. *)
Lemma read_setup_view (a : Z) (h : hw) :
  exists v' b2,
    prun (ev_read_setup a) (view h)
    = (mkPins (mkPin (p_out (pin_msb (pins_of (cpu h)))) false)
              (mkPin (p_out (pin_lsb (pins_of (cpu h)))) false)
              (mkPin (p_out (pin_re (pins_of (cpu h)))) false)
              (pin_we (pins_of (cpu h))) 0 v', b2) /\
    latch_msb b2 = u8 (Z.shiftr a 8) /\ latch_lsb b2 = u8 a /\ same_device (brd h) b2.
Proof.
  change (ev_read_setup a)
    with (ev_data_output ++ (ev_address a ++ ev_data_input ++ [ev_assert ReadEnable] ++ [EvNop; EvNop])).
  rewrite prun_app. unfold view.
  pose proof (data_dir_byte (cpu h)) as Hd.
  change (data_dir (cpu h)) with (dat_dir (pins_of (cpu h))) in Hd.
  destruct (pins_of (cpu h)) as [[om lm] [ol ll] [o lr] [ow lw] dd v].
  cbn [dat_dir pin_msb pin_lsb pin_re pin_we p_out] in *.
  destruct (read_stage1 (mkPin om lm) (mkPin ol ll) (mkPin o lr) (mkPin ow lw) dd v (brd h) Hd)
    as [P1 D1].
  destruct (prun ev_data_output _) as [p1 b1]. cbn [fst snd] in P1, D1. subst p1.
  destruct (read_stage2 a om lm ol ll o lr ow lw v b1) as [P2 (M2 & L2 & D2)].
  destruct (prun (ev_address a ++ _) _) as [p2 b2]. cbn [fst snd] in P2, M2, L2, D2. subst p2.
  eexists; exists b2. split; [reflexivity|].
  split; [exact M2|]. split; [exact L2|].
  now apply (same_device_trans _ b1).
Qed.

(** What a read cycle leaves and returns. *)
Lemma read_bus_effect (a : Z) (h : hw) :
  exists v' b2,
    view (final (Bus.read_bus a) h)
    = (mkPins (mkPin (p_out (pin_msb (pins_of (cpu h)))) false)
              (mkPin (p_out (pin_lsb (pins_of (cpu h)))) false)
              (mkPin (p_out (pin_re (pins_of (cpu h)))) true)
              (pin_we (pins_of (cpu h))) 0 v', b2) /\
    latch_msb b2 = u8 (Z.shiftr a 8) /\ latch_lsb b2 = u8 a /\ same_device (brd h) b2 /\
    (is_output ReadEnable (cpu h) = true ->
     result (Bus.read_bus a) h = u8 (cells (brd h) (cell_of (u16 a)))).
Proof.
  destruct (read_setup_view a h) as (v' & b2 & V & M2 & L2 & D2).
  destruct (read_bus_run a h) as [E R].
  exists v', b2.
  split; [|split; [exact M2|split; [exact L2|split; [exact D2|]]]].
  - rewrite (view_final _ _ (faithful_read_bus a)), E, prun_app, V.
    destruct (pin_we (pins_of (cpu h))) as [ow lw].
    apply read_stage3.
  - intros Ho. change (is_output ReadEnable (cpu h)) with (p_out (pin_re (pins_of (cpu h)))) in Ho.
    rewrite R, lines_view, view_replay, V, Ho. cbn [fst snd].
    rewrite lines_read. unfold bus_addr. rewrite M2, L2.
    fold (latched_addr a). rewrite latched_addr_u16.
    destruct D2 as (C2 & _). now rewrite C2.
Qed.

(** X8: when read-enable is an output pin, whatever the rest of the state
    (also with the bus set up for write cycles), [read_bus] returns the
    byte of the cell the address selects, the address taken modulo 2^16. *)
Theorem read_bus_returns_cell (a : Z) (h : hw) :
  is_output ReadEnable (cpu h) = true ->
  result (Bus.read_bus a) h = u8 (cells (brd h) (cell_of (u16 a))).
Proof.
  destruct (read_bus_effect a h) as (v' & b2 & _ & _ & _ & _ & R). exact R.
Qed.

Lemma read_bus_returns_cell_witness :
  result (Bus.read_bus 0x0123) (final Bus.config_write reset_hw)
  = u8 (cells (brd (final Bus.config_write reset_hw)) (cell_of (u16 0x0123))).
Proof.
  exact (read_bus_returns_cell 0x0123 (final Bus.config_write reset_hw) eq_refl).
Defined.

(** X9: whatever the state, [read_bus] shows the device no write cycle and
    changes no cell, and it leaves the two latches presenting the address
    modulo 2^16. *)
Theorem read_bus_preserves_device (a : Z) (h : hw) :
  same_device (brd h) (brd (final (Bus.read_bus a) h)) /\
  bus_addr (brd (final (Bus.read_bus a) h)) = u16 a.
Proof.
  destruct (read_bus_effect a h) as (v' & b2 & V & M2 & L2 & D2 & _).
  rewrite (brd_view (final (Bus.read_bus a) h)), V. cbn [snd].
  split; [exact D2|].
  unfold bus_addr. rewrite M2, L2. apply latched_addr_u16.
Qed.

(** X10: when read-enable is an output pin, two read cycles in a row
    return the bytes of the two cells as they were before the first: a read
    cycle does not disturb the next one. *)
Theorem reads_compose (a a' : Z) (h : hw) :
  is_output ReadEnable (cpu h) = true ->
  result (x <- Bus.read_bus a ;; y <- Bus.read_bus a' ;; ret (x, y)) h
  = (u8 (cells (brd h) (cell_of (u16 a))), u8 (cells (brd h) (cell_of (u16 a')))).
Proof.
  intros Ho. rewrite !result_bind.
  change (result (ret ?p) ?s) with p.
  destruct (read_bus_effect a h) as (v' & b2 & V & _ & _ & D2 & R).
  rewrite (R Ho). f_equal.
  destruct (read_bus_effect a' (final (Bus.read_bus a) h)) as (_ & _ & _ & _ & _ & _ & R').
  rewrite R'.
  - rewrite (brd_view (final (Bus.read_bus a) h)), V. cbn [snd].
    destruct D2 as (C2 & _). now rewrite C2.
  - change (is_output ReadEnable (cpu (final (Bus.read_bus a) h)))
      with (p_out (pin_re (fst (view (final (Bus.read_bus a) h))))).
    rewrite V. exact Ho.
Qed.

Lemma reads_compose_witness :
  result (x <- Bus.read_bus 0x0001 ;; y <- Bus.read_bus 0x1FFF ;; ret (x, y))
         (final Bus.config_read reset_hw)
  = (u8 (cells (brd (final Bus.config_read reset_hw)) (cell_of (u16 0x0001))),
     u8 (cells (brd (final Bus.config_read reset_hw)) (cell_of (u16 0x1FFF)))).
Proof.
  exact (reads_compose 0x0001 0x1FFF (final Bus.config_read reset_hw) eq_refl).
Defined.

(** ** Two writes and a read *)

(** X11: with the bus set up for write cycles and the device unprotected,
    after a write of [d] at [a] and a write of [d'] at [a'], a read of [a]
    (after [config_read]) returns [d'] when both addresses select the same
    cell and [d] otherwise: the second write neither is lost nor disturbs
    another cell. *)
Theorem last_write_wins (a d a' d' : Z) (h : hw) :
  configured_for_write (cpu h) = true ->
  protection (brd h) = false ->
  result (Bus.write_bus a d ;; Bus.write_bus a' d' ;; Bus.config_read ;; Bus.read_bus a) h
  = if cell_of (u16 a) =? cell_of (u16 a') then u8 d' else u8 d.
Proof.
  intros Hc Hp.
  rewrite !result_bind.
  destruct (read_bus_run a (final Bus.config_read
                              (final (Bus.write_bus a' d') (final (Bus.write_bus a d) h))))
    as [_ ->].
  rewrite lines_view, view_replay.
  rewrite (view_final _ _ faithful_config_read), events_config_read.
  rewrite (view_final _ _ (faithful_write_bus a' d')), events_write_bus.
  rewrite (view_final _ _ (faithful_write_bus a d)), events_write_bus.
  rewrite configured_view in Hc.
  apply andb_true_iff in Hc. destruct Hc as [Hc Hwl].
  apply andb_true_iff in Hc. destruct Hc as [Hd Hwo].
  apply Z.eqb_eq in Hd.
  unfold view in *; cbn [fst] in Hd, Hwo, Hwl.
  destruct (pins_of (cpu h)) as [[om lm] [ol ll] pr [ow lw] dd v].
  cbn [dat_dir pin_we p_out p_lvl] in Hd, Hwo, Hwl. subst dd ow lw.
  rewrite !prun_write_bus, prun_config_read, prun_read_setup.
  cbn [fst snd]. rewrite lines_read.
  unfold board_addressed, bus_addr. cbn [latch_msb latch_lsb cells].
  fold (latched_addr a).
  cbn [board_after_write cells protection]. rewrite Hp.
  rewrite <- !latched_addr_u16.
  unfold store at 1.
  destruct (cell_of (latched_addr a) =? cell_of (latched_addr a')).
  - apply u8_idem.
  - rewrite store_same. apply u8_idem.
Qed.

Lemma last_write_wins_witness :
  result (Bus.write_bus 0x0010 0x11 ;; Bus.write_bus 0x2010 0x22 ;; Bus.config_read ;;
          Bus.read_bus 0x0010) (final Bus.config_write reset_hw)
  = if cell_of (u16 0x0010) =? cell_of (u16 0x2010) then u8 0x22 else u8 0x11.
Proof.
  exact (last_write_wins 0x0010 0x11 0x2010 0x22 (final Bus.config_write reset_hw)
           eq_refl eq_refl).
Defined.

(** ** No contention in whole programs *)

Lemma states_along_app (t1 t2 : list event) (h : hw) :
  states_along (t1 ++ t2) h = states_along t1 h ++ tl (states_along t2 (replay t1 h)).
Proof.
  revert h; induction t1 as [|e t1 IH]; intros h; cbn [app states_along].
  - destruct t2; reflexivity.
  - rewrite IH. reflexivity.
Qed.

Lemma Forall_tl {A} (P : A -> Prop) (l : list A) : Forall P l -> Forall P (tl l).
Proof. intros H; destruct H; [constructor|assumption]. Qed.

Lemma passes_bind {A B} (P : hw -> Prop) (m : M A) (k : A -> M B) (h : hw) :
  faithful m ->
  Forall P (passes m h) ->
  Forall P (passes (k (result m h)) (final m h)) ->
  Forall P (passes (bind m k) h).
Proof.
  intros Hm H1 H2. unfold passes in *.
  rewrite events_bind, states_along_app, <- Hm.
  apply Forall_app. split; [exact H1|now apply Forall_tl].
Qed.

Lemma spares_re_step (e : event) (q : pins) :
  spares_re e = true -> re_on (pins_step e q) = re_on q.
Proof.
  destruct q as [pm pl [o l] pw dd v].
  destruct e as [p m|p m|p m x|p m x| |ms]; try reflexivity;
    destruct p; try reflexivity; cbn [spares_re]; intros Hs;
    apply negb_true_iff in Hs;
    unfold re_on, pins_step, pin_step;
    cbn [pin_re l_port l_bit l_pol ReadEnable port_eqb p_out p_lvl] in *;
    rewrite Hs; reflexivity.
Qed.

Lemma spares_re_along (evs : list event) :
  forallb spares_re evs = true ->
  forall q, re_on q = false -> Forall (fun q' => re_on q' = false) (pins_along evs q).
Proof.
  induction evs as [|e evs IH]; intros Hs q Hq; cbn [pins_along].
  - constructor; [exact Hq|constructor].
  - cbn [forallb] in Hs. apply andb_true_iff in Hs. destruct Hs as [He Hs].
    constructor; [exact Hq|]. apply IH; [exact Hs|].
    now rewrite spares_re_step.
Qed.

Lemma spares_re_sequence (s : list (Z * Z)) (ms : Z) :
  forallb spares_re (ev_sequence s ++ [EvDelay ms]) = true.
Proof.
  induction s as [|[a d] s IH]; [reflexivity|].
  cbn [ev_sequence flat_map fst snd]. fold (ev_sequence s).
  rewrite <- app_assoc, forallb_app, IH. reflexivity.
Qed.

Lemma released_no_contention (evs : list event) (h : hw) :
  Forall (fun q => re_on q = false) (pins_along evs (pins_of (cpu h))) ->
  Forall (fun s => contention (cpu s) = false) (states_along evs h).
Proof.
  intros Hall.
  apply (pins_states_along (fun q => re_on q && negb (dat_dir q =? 0) = false)).
  eapply Forall_impl; [|exact Hall].
  intros q Hq. cbv beta in *. now rewrite Hq.
Qed.

Lemma config_spares_contention (evs : list event) (p : pins) :
  evs = ev_config_write \/ evs = ev_config_read ->
  re_on p = false ->
  Forall (fun q => re_on q = false) (pins_along evs p).
Proof.
  intros Hev Hre.
  destruct p as [pm pl [o l] pw dd v].
  unfold re_on in Hre; cbn [pin_re l_pol ReadEnable pin_asserted pin_low p_out p_lvl] in Hre.
  destruct Hev as [-> | ->].
  all: set (L := pins_along _ _);
    cbv -[Z.land Z.lor Z.ldiff Z.eqb Z.shiftr DATA_HI DATA_LO] in L; subst L.
  all: repeat (constructor;
               [unfold re_on;
                cbn [pin_re l_pol ReadEnable pin_asserted pin_low p_out p_lvl];
                first [exact Hre | destruct o; reflexivity]|]).
  all: constructor.
Qed.

Lemma config_write_never_contends (h : hw) :
  asserted ReadEnable (cpu h) = false ->
  Forall (fun s => contention (cpu s) = false) (passes Bus.config_write h).
Proof.
  intros Hre. unfold passes. rewrite events_config_write.
  apply released_no_contention, config_spares_contention; [now left|exact Hre].
Qed.

Lemma config_read_never_contends (h : hw) :
  asserted ReadEnable (cpu h) = false ->
  Forall (fun s => contention (cpu s) = false) (passes Bus.config_read h).
Proof.
  intros Hre. unfold passes. rewrite events_config_read.
  apply released_no_contention, config_spares_contention; [now right|exact Hre].
Qed.

Lemma write_bus_never_contends (a d : Z) (h : hw) :
  asserted ReadEnable (cpu h) = false ->
  Forall (fun s => contention (cpu s) = false) (passes (Bus.write_bus a d) h).
Proof.
  intros Hre. unfold passes. rewrite events_write_bus.
  apply released_no_contention, spares_re_along; [reflexivity|exact Hre].
Qed.

Lemma sequence_never_contends (s : list (Z * Z)) (ms : Z) (h : hw) :
  asserted ReadEnable (cpu h) = false ->
  Forall (fun s => contention (cpu s) = false) (passes (Bus.config_write ;; issue s ms) h).
Proof.
  intros Hre.
  apply passes_bind; [exact faithful_config_write|now apply config_write_never_contends|].
  unfold passes. rewrite events_issue.
  apply released_no_contention, spares_re_along; [apply spares_re_sequence|].
  change (asserted ReadEnable (cpu (final Bus.config_write h)) = false).
  rewrite asserted_re_pins, pins_after_config_write. reflexivity.
Qed.

Lemma faithful_unlock : faithful unlock.
Proof. unfold unlock. faithful_tac. Qed.

Lemma faithful_call (c : call) : faithful (run_call c).
Proof.
  destruct c; cbn [run_call].
  - exact faithful_config_write.
  - exact faithful_config_read.
  - apply faithful_write_bus.
  - apply faithful_bind; [apply faithful_read_bus|intro; apply faithful_ret].
  - exact faithful_erase.
  - exact faithful_unlock.
  - exact faithful_lock.
Qed.

Lemma call_never_contends (c : call) (h : hw) :
  asserted ReadEnable (cpu h) = false ->
  Forall (fun s => contention (cpu s) = false) (passes (run_call c) h).
Proof.
  intros Hre. destruct c as [| |a d|a| | |]; cbn [run_call].
  - now apply config_write_never_contends.
  - now apply config_read_never_contends.
  - now apply write_bus_never_contends.
  - apply passes_bind; [apply faithful_read_bus|now apply no_contention_read|].
    constructor; [|constructor].
    change (contention (cpu (final (Bus.read_bus a) h)) = false).
    unfold contention.
    destruct (enables_after_read a h) as [_ Hl].
    rewrite asserted_re_pins. unfold pin_low. rewrite Hl.
    now rewrite andb_false_r.
  - rewrite erase_is_issue. now apply sequence_never_contends.
  - rewrite unlock_is_issue. now apply sequence_never_contends.
  - rewrite lock_is_issue. now apply sequence_never_contends.
Qed.


